(** * ASX mining scanner: deduplication, classification and report building

    A shallow embedding of [asx_scanner.py] (class [ASXMiningScanner]) and the
    properties of its announcement pipeline.

    Modelling conventions.
    - A Python [str] is a Rocq [string]; texts are taken to be ASCII, where
      [len] is [String.length] and [str.lower] is [lower] below.
    - A raw announcement is a Python [dict] from field names to strings: a
      [gmap string string].  [d.get(k, v)] is [get d k v].
    - The [seen] set of the deduplication loop is a [gset string].
    - A dict whose iteration order matters (the per-company and per-sector
      tallies of the report) is an insertion-ordered association list.
    - A company entry is a dict with exactly the keys [code], [name] and
      [sector], as every entry of the static table is: a record.  An entry
      of the supplemental file that lacks one of the keys, on which the
      program raises [KeyError], is outside the model.
    - What the program reads from the outside world (the scraped pages, the
      supplemental company file, the clock, the matches of the regular
      expressions of [re]) is a parameter of the function that uses it.
    - [None] as the result of the report builder stands for the
      [IndexError] of [company_announcements[0]], and for no other
      exception. *)

From Stdlib Require Import Ascii DecimalString Sorted.
From stdpp Require Import gmap strings list sorting.

(** ** Strings *)

Definition nl : string := String (ascii_of_nat 10) "".

(** [str.lower] on ASCII text. *)
Definition lower_char (c : ascii) : ascii :=
  let n := nat_of_ascii c in
  if (65 <=? n) && (n <=? 90) then ascii_of_nat (n + 32) else c.

Fixpoint lower (s : string) : string :=
  match s with
  | EmptyString => EmptyString
  | String c s' => String (lower_char c) (lower s')
  end.

Fixpoint starts_with (p s : string) : bool :=
  match p, s with
  | EmptyString, _ => true
  | String _ _, EmptyString => false
  | String a p', String b s' => if decide (a = b) then starts_with p' s' else false
  end.

(** [needle in hay] on strings. *)
Fixpoint contains (needle hay : string) : bool :=
  starts_with needle hay ||
  match hay with
  | EmptyString => false
  | String _ hay' => contains needle hay'
  end.

(** [c in s] for a single character. *)
Fixpoint has_char (c : ascii) (s : string) : bool :=
  match s with
  | EmptyString => false
  | String a s' => if decide (a = c) then true else has_char c s'
  end.

(** The mathematical notion [contains] decides. *)
Definition Substring (w s : string) : Prop :=
  ∃ pre post, s = pre +:+ w +:+ post.

(** [str(n)] for a natural number. *)
Definition str (n : nat) : string := NilEmpty.string_of_uint (Nat.to_uint n).

(** ** Data model *)

(** class [Announcement] (a dataclass). *)
Record Announcement := mkAnnouncement {
  company_name : string;
  company_code : string;
  title : string;
  content : string;
  date : string;
  time : string;
  url : string;
  sentiment : string;
  key_points : list string
}.

Record Company := mkCompany {
  code : string;
  name : string;
  sector : string
}.

(** The [scanning] part of the configuration; the [email] part is only used
    by the mail dispatcher. *)
Record Config := mkConfig {
  keywords : list string;
  min_announcement_length : nat
}.

Abbreviation RawRecord := (gmap string string).

Definition get (d : RawRecord) (k : string) (dflt : string) : string :=
  default dflt (d !! k).

(** [load_config_from_env]. *)
Definition load_config_from_env : Config :=
  {| keywords := ["drilling"; "resource"; "reserve"; "production"; "exploration";
                  "acquisition"; "merger"; "feasibility"; "offtake"; "partnership";
                  "upgrade"; "expansion"; "mine"; "operation"; "project"; "development"];
     min_announcement_length := 30 |}.

(** ** Company registry *)

Definition static_companies : list Company :=
  [ mkCompany "BHP" "BHP Group Limited" "Diversified Metals";
    mkCompany "RIO" "Rio Tinto Limited" "Diversified Metals";
    mkCompany "FMG" "Fortescue Metals Group Ltd" "Iron Ore";
    mkCompany "NCM" "Newcrest Mining Limited" "Gold";
    mkCompany "EVN" "Evolution Mining Limited" "Gold";
    mkCompany "NST" "Northern Star Resources Ltd" "Gold";
    mkCompany "MIN" "Mineral Resources Limited" "Diversified Metals";
    mkCompany "IGO" "IGO Limited" "Nickel/Lithium";
    mkCompany "SBM" "St Barbara Limited" "Gold";
    mkCompany "RSG" "Resolute Mining Limited" "Gold";
    mkCompany "RRL" "Regis Resources Limited" "Gold";
    mkCompany "SAR" "Saracen Mineral Holdings Limited" "Gold";
    mkCompany "GOR" "Gold Road Resources Limited" "Gold";
    mkCompany "DCN" "Dacian Gold Limited" "Gold";
    mkCompany "KLA" "Kirkland Lake Gold Ltd" "Gold";
    mkCompany "LRV" "Larvotto Resources Limited" "Gold";
    mkCompany "TMR" "Tempus Resources Ltd" "Gold";
    mkCompany "NVA" "Nova Minerals Limited" "Gold";
    mkCompany "PLS" "Pilbara Minerals Limited" "Lithium";
    mkCompany "ORE" "Orocobre Limited" "Lithium";
    mkCompany "GXY" "Galaxy Resources Limited" "Lithium";
    mkCompany "CXO" "Core Lithium Ltd" "Lithium";
    mkCompany "LPD" "Lepidico Ltd" "Lithium";
    mkCompany "ARI" "Argosy Minerals Limited" "Lithium";
    mkCompany "ASN" "Anson Resources Limited" "Lithium";
    mkCompany "LTR" "Liontown Resources Limited" "Lithium";
    mkCompany "BOE" "Boss Energy Limited" "Uranium";
    mkCompany "PEN" "Peninsula Energy Limited" "Uranium";
    mkCompany "BMN" "Bannerman Energy Ltd" "Uranium";
    mkCompany "DYL" "Deep Yellow Limited" "Uranium";
    mkCompany "LOT" "Lotus Resources Limited" "Uranium";
    mkCompany "AZS" "Azure Minerals Limited" "Copper";
    mkCompany "C6C" "Copper Mountain Mining Corporation" "Copper";
    mkCompany "29M" "29Metals Limited" "Copper";
    mkCompany "SFR" "Sandfire Resources Limited" "Copper";
    mkCompany "GRR" "Grange Resources Limited" "Iron Ore";
    mkCompany "AGO" "Atlas Iron Limited" "Iron Ore";
    mkCompany "BCI" "BC Iron Limited" "Iron Ore";
    mkCompany "FRI" "Fortescue Future Industries" "Iron Ore";
    mkCompany "MLS" "Metals X Limited" "Tin";
    mkCompany "VMG" "VanMag Limited" "Vanadium";
    mkCompany "FYI" "FYI Resources Limited" "Alumina";
    mkCompany "SYR" "Syrah Resources Limited" "Graphite";
    mkCompany "TNG" "TNG Limited" "Titanium";
    mkCompany "LYC" "Lynas Rare Earths Ltd" "Rare Earths";
    mkCompany "ARU" "Arafura Resources Limited" "Rare Earths";
    mkCompany "IXR" "Ionic Rare Earths Limited" "Rare Earths";
    mkCompany "WHC" "Whitehaven Coal Limited" "Coal";
    mkCompany "NHC" "New Hope Corporation Limited" "Coal";
    mkCompany "WDS" "Woodside Energy Group Ltd" "Energy";
    mkCompany "STO" "Santos Limited" "Energy";
    mkCompany "ORG" "Origin Energy Limited" "Energy";
    mkCompany "EXR" "Elixir Energy Limited" "Gas" ].

(** [load_mining_companies].  [additional] is what [mining_companies.json]
    holds: [None] when the file is absent or cannot be read, in which case
    the static table is returned alone. *)
Definition load_mining_companies (additional : option (list Company)) : list Company :=
  match additional with
  | Some additional_companies => static_companies ++ additional_companies
  | None => static_companies
  end.

(** [is_mining_company]. *)
Definition is_mining_company (mining_companies : list Company) (company_code : string) : bool :=
  existsb (λ company, bool_decide (code company = company_code)) mining_companies.

(** [get_company_info]: a linear scan that returns at the first match. *)
Fixpoint get_company_info (mining_companies : list Company) (company_code : string)
  : option Company :=
  match mining_companies with
  | [] => None
  | company :: rest =>
      if decide (code company = company_code) then Some company
      else get_company_info rest company_code
  end.

(** ** Deduplication (the loop that ends [get_asx_announcements]) *)

(** [key = f"{ann.get('company_code', '')}-{ann.get('title', '')}"]. *)
Definition dedupe_key (ann : RawRecord) : string :=
  get ann "company_code" "" +:+ "-" +:+ get ann "title" "".

(** One iteration: the state is [(seen, unique_announcements)]. *)
Definition dedupe_step (st : gset string * list RawRecord) (ann : RawRecord)
  : gset string * list RawRecord :=
  let key := dedupe_key ann in
  if decide (key ∈ st.1) then st
  else ({[ key ]} ∪ st.1, st.2 ++ [ann]).

Definition dedupe (announcements : list RawRecord) : list RawRecord :=
  (foldl dedupe_step (∅, []) announcements).2.

(** [get_asx_announcements], given what the three scrapers return. *)
Definition get_asx_announcements
  (market_index simply_wall_st commsec_style : list RawRecord) : list RawRecord :=
  let announcements := [] in
  let announcements := announcements ++ market_index in
  let announcements := announcements ++ simply_wall_st in
  let announcements := announcements ++ commsec_style in
  dedupe announcements.

(** The identity of a record as the specification words it: the pair of its
    company code and title, compared as exact strings. *)
Definition identity (ann : RawRecord) : string * string :=
  (get ann "company_code" "", get ann "title" "").

(** Deduplication as the specification words it: a record is kept when no
    earlier record has the same identity pair. *)
Fixpoint dedupe_by_identity (seen : list (string * string)) (records : list RawRecord)
  : list RawRecord :=
  match records with
  | [] => []
  | r :: rest =>
      if decide (identity r ∈ seen) then dedupe_by_identity seen rest
      else r :: dedupe_by_identity (identity r :: seen) rest
  end.

(** ** Classification *)

Definition positive_keywords : list string :=
  ["increase"; "growth"; "strong"; "successful"; "positive"; "upgrade";
   "expansion"; "discovery"; "high-grade"; "significant"; "excellent";
   "breakthrough"; "achievement"; "record"; "boost"; "progress"].

Definition negative_keywords : list string :=
  ["decrease"; "decline"; "loss"; "suspension"; "delay"; "downgrade";
   "closure"; "reduction"; "cut"; "lower"; "disappointing"; "concern";
   "issue"; "problem"; "halt"; "stop"].

(** [sum(1 for keyword in kws if keyword in text)]. *)
Definition score (kws : list string) (text : string) : nat :=
  foldl (λ acc keyword, if contains keyword text then acc + 1 else acc) 0 kws.

(** The key-point loop: [key_points.append(f"Related to {keyword}")]. *)
Definition extract_key_points (kws : list string) (title_lower : string) : list string :=
  foldl (λ key_points keyword,
           if contains (lower keyword) title_lower
           then key_points ++ ["Related to " +:+ keyword]
           else key_points) [] kws.

(** [analyze_announcement]. *)
Definition analyze_announcement (config : Config) (announcement : RawRecord) : Announcement :=
  let title := get announcement "title" "" in
  let content := get announcement "content" title in
  let title_lower := lower title in
  let positive_score := score positive_keywords title_lower in
  let negative_score := score negative_keywords title_lower in
  let sentiment :=
    if negative_score <? positive_score then "positive"
    else if positive_score <? negative_score then "negative"
    else "neutral" in
  let key_points := extract_key_points (keywords config) title_lower in
  {| company_name := get announcement "company_name" "";
     company_code := get announcement "company_code" "";
     title := title;
     content := content;
     date := get announcement "date" "";
     time := get announcement "time" "";
     url := get announcement "url" "";
     sentiment := sentiment;
     key_points := key_points |}.

(** The filtering loop of [run_daily_scan]: classify, then keep the
    announcement when its title is long enough. *)
Definition scan_step (config : Config) (analyzed_announcements : list Announcement)
  (raw_announcement : RawRecord) : list Announcement :=
  let analyzed := analyze_announcement config raw_announcement in
  if min_announcement_length config <=? String.length (title analyzed)
  then analyzed_announcements ++ [analyzed]
  else analyzed_announcements.

Definition analyze_all (config : Config) (raw_announcements : list RawRecord)
  : list Announcement :=
  foldl (scan_step config) [] raw_announcements.

(** ** Insertion-ordered dictionaries

    A Python [dict] iterates in insertion order, and assigning to a key that
    is already present keeps its position. *)

Section odict.
Context {V : Type}.

(** [k in d]. *)
Definition od_mem (k : string) (d : list (string * V)) : bool :=
  existsb (λ kv, bool_decide (kv.1 = k)) d.

(** [d[k] = f(d[k])] for a key that is present. *)
Fixpoint od_alter (f : V → V) (k : string) (d : list (string * V)) : list (string * V) :=
  match d with
  | [] => []
  | (k', v) :: d' =>
      if decide (k' = k) then (k', f v) :: d' else (k', v) :: od_alter f k d'
  end.

(** [d[k] = v]. *)
Definition od_insert (k : string) (v : V) (d : list (string * V)) : list (string * V) :=
  if od_mem k d then od_alter (λ _, v) k d else d ++ [(k, v)].
End odict.

(** ** Sorting

    [sorted] is stable; for a total preorder the result of a stable sort is
    determined by its input, and insertion from the right computes it. *)

Section sorted.
Context {A : Type} (le : A → A → bool).

Fixpoint insert_sorted (x : A) (l : list A) : list A :=
  match l with
  | [] => [x]
  | y :: l' => if le x y then x :: l else y :: insert_sorted x l'
  end.

Definition sorted (l : list A) : list A := foldr insert_sorted [] l.
End sorted.

(** The order of [sorted(companies.items())]: the keys of a dict are
    distinct, so the comparison of two items is decided by their codes. *)
Definition item_le (x y : string * list Announcement) : bool := String.leb x.1 y.1.

(** The order of [sorted(sectors.items(), key=lambda x: x[1], reverse=True)]. *)
Definition count_ge (x y : string * nat) : bool := y.2 <=? x.2.

(** The sequence of strings in which each one appears once, at the place of
    its first occurrence. *)
Fixpoint first_occurrences (seen : list string) (l : list string) : list string :=
  match l with
  | [] => []
  | s :: l' =>
      if decide (s ∈ seen) then first_occurrences seen l'
      else s :: first_occurrences (s :: seen) l'
  end.

(** ** Report building *)

Definition positive_header : string := "### ðŸ“ˆ Positive Developments".
Definition neutral_header : string := "### ðŸ“Š General Updates".
Definition negative_header : string := "### ðŸ“‰ Challenges/Concerns".
Definition no_announcements_phrase : string :=
  "No significant mining announcements found for today.".

Section report.
(** [self.mining_companies]. *)
Variable mining_companies : list Company.
(** [datetime.now().strftime('%B %d, %Y')] and
    [datetime.now().strftime('%Y-%m-%d %H:%M:%S')] at the time of the call. *)
Variables now_date now_stamp : string.
(** On a title: [project_match.group(2).strip()] and
    [location_match.group(1).strip()] when the search succeeds, and the
    list [numbers] of [re.findall]. *)
Variables project_match location_match : string → option string.
Variable numbers : string → list string.

(** [format_announcement_summary]. *)
Definition format_announcement_summary (announcement : Announcement) : string :=
  let t := title announcement in
  let summary := "â€¢ **" +:+ company_name announcement +:+ "** " in
  let summary :=
    if contains "production" (lower t) then summary +:+ "reported production "
    else if contains "drilling" (lower t) then summary +:+ "announced drilling "
    else if contains "resource" (lower t) then summary +:+ "updated resource "
    else if contains "approval" (lower t) then summary +:+ "received approval "
    else if contains "acquisition" (lower t) then summary +:+ "announced acquisition "
    else summary +:+ "announced " in
  let summary :=
    match project_match t, location_match t with
    | Some project_name, _ => summary +:+ "at **" +:+ project_name +:+ "** "
    | None, Some location_name => summary +:+ "for **" +:+ location_name +:+ "** "
    | None, None => summary
    end in
  let summary :=
    match numbers t with
    | n :: _ => summary +:+ "with " +:+ n +:+ " "
    | [] => summary
    end in
  let summary := summary +:+ "- " +:+ t in
  summary +:+ " (" +:+ company_code announcement +:+ ")".

(** One of the three blocks [if group: report += header ...]. *)
Definition add_section (header : string) (group : list Announcement) (report : string)
  : string :=
  match group with
  | [] => report
  | _ :: _ =>
      let report := report +:+ header +:+ nl in
      let report :=
        foldl (λ r announcement, r +:+ format_announcement_summary announcement +:+ nl)
              report group in
      report +:+ nl
  end.

(** The body of the grouping loop of the company breakdown. *)
Definition group_step (companies : list (string * list Announcement))
  (announcement : Announcement) : list (string * list Announcement) :=
  let companies :=
    if od_mem (company_code announcement) companies then companies
    else od_insert (company_code announcement) [] companies in
  od_alter (λ l, l ++ [announcement]) (company_code announcement) companies.

(** The company items in the order in which they are rendered. *)
Definition company_items (announcements : list Announcement)
  : list (string * list Announcement) :=
  sorted item_le (foldl group_step [] announcements).

(** One line of the company breakdown. *)
Definition breakdown_line (item : string * list Announcement) : option string :=
  let company_info := get_company_info mining_companies item.1 in
  shown_name ← match company_info with
                | Some c => Some (name c)
                | None => company_name <$> head item.2
                end;
  let shown_sector :=
    match company_info with Some c => sector c | None => "Mining" end in
  Some ("**" +:+ shown_name +:+ " (" +:+ item.1 +:+ ")** - " +:+ shown_sector +:+ ": "
        +:+ str (length item.2) +:+ " announcement(s)" +:+ nl).

(** The sector an announcement is tallied under. *)
Definition summary_sector (announcement : Announcement) : string :=
  match get_company_info mining_companies (company_code announcement) with
  | Some c => sector c
  | None => "Other"
  end.

(** The body of the tallying loop of the sector summary. *)
Definition tally_step (sectors : list (string * nat)) (announcement : Announcement)
  : list (string * nat) :=
  let s := summary_sector announcement in
  let sectors := if od_mem s sectors then sectors else od_insert s 0 sectors in
  od_alter S s sectors.

Definition sector_line (item : string * nat) : string :=
  "- " +:+ item.1 +:+ ": " +:+ str item.2 +:+ " announcement(s)" +:+ nl.

(** The sector items in the order in which they are rendered. *)
Definition sector_items (announcements : list Announcement) : list (string * nat) :=
  sorted count_ge (foldl tally_step [] announcements).

Definition empty_report : string :=
  nl +:+ "# ASX Mining Daily Report - " +:+ now_date +:+ nl
  +:+ nl
  +:+ "## Summary" +:+ nl
  +:+ no_announcements_phrase +:+ nl
  +:+ nl
  +:+ "The scanner checked " +:+ str (length mining_companies)
  +:+ " mining companies but found no new announcements meeting the criteria." +:+ nl
  +:+ nl
  +:+ "---" +:+ nl
  +:+ "*Report generated at " +:+ now_stamp +:+ " UTC*" +:+ nl
  +:+ "*Monitoring " +:+ str (length mining_companies) +:+ " ASX mining companies*" +:+ nl.

Definition report_head (announcements : list Announcement) : string :=
  nl +:+ "# ASX Mining Daily Report - " +:+ now_date +:+ nl
  +:+ nl
  +:+ "## Summary" +:+ nl
  +:+ "Found " +:+ str (length announcements)
  +:+ " significant announcements from mining companies today." +:+ nl
  +:+ nl
  +:+ "## Key Announcements" +:+ nl
  +:+ nl.

Definition sector_summary_head : string :=
  nl +:+ nl +:+ "## Sector Summary" +:+ nl.

Definition report_foot : string :=
  nl +:+ nl
  +:+ "---" +:+ nl
  +:+ "*Report generated at " +:+ now_stamp +:+ " UTC*" +:+ nl
  +:+ "*Monitoring " +:+ str (length mining_companies) +:+ " ASX mining companies*" +:+ nl
  +:+ "*Next report: Tomorrow at 8:00 AM AEST*" +:+ nl.

(** [generate_daily_report]. *)
Definition generate_daily_report (announcements : list Announcement) : option string :=
  match announcements with
  | [] => Some empty_report
  | _ :: _ =>
      let positive_announcements :=
        filter (λ a, sentiment a = "positive") announcements in
      let neutral_announcements :=
        filter (λ a, sentiment a = "neutral") announcements in
      let negative_announcements :=
        filter (λ a, sentiment a = "negative") announcements in
      let report := report_head announcements in
      let report := add_section positive_header positive_announcements report in
      let report := add_section neutral_header neutral_announcements report in
      let report := add_section negative_header negative_announcements report in
      let report := report +:+ "## Company Breakdown" +:+ nl in
      report ← foldl (λ acc item, r ← acc; line ← breakdown_line item; Some (r +:+ line))
                     (Some report) (company_items announcements);
      let report := report +:+ sector_summary_head in
      let report :=
        foldl (λ r item, r +:+ sector_line item) report (sector_items announcements) in
      Some (report +:+ report_foot)
  end.

(** The report up to the company breakdown. *)
Definition key_announcements (announcements : list Announcement) : string :=
  add_section negative_header (filter (λ a, sentiment a = "negative") announcements)
    (add_section neutral_header (filter (λ a, sentiment a = "neutral") announcements)
       (add_section positive_header (filter (λ a, sentiment a = "positive") announcements)
          (report_head announcements))).

(** The sectors in the order in which the scan of the announcements first
    meets them, each with the number of announcements tallied under it. *)
Definition discovered_sectors (announcements : list Announcement) : list (string * nat) :=
  (λ s, (s, length (filter (λ a, summary_sector a = s) announcements)))
    <$> first_occurrences [] (summary_sector <$> announcements).
End report.

(** The report of [run_daily_scan], from what the scrapers returned. *)
Definition run_daily_scan (config : Config) (mining_companies : list Company)
  (now_date now_stamp : string)
  (project_match location_match : string → option string) (numbers : string → list string)
  (market_index simply_wall_st commsec_style : list RawRecord) : option string :=
  let raw_announcements := get_asx_announcements market_index simply_wall_st commsec_style in
  let analyzed_announcements := analyze_all config raw_announcements in
  generate_daily_report mining_companies now_date now_stamp
    project_match location_match numbers analyzed_announcements.

(** ** The Market Index scraper

    The page is fetched and parsed outside the model: the input is what
    [soup.find_all('table')] and [find_all('tr')] give, a list of tables,
    each a list of rows.  A row is the list of the texts of its cells
    ([get_text(strip=True)]) together with the reading of
    [datetime.now().strftime("%Y-%m-%d")] at the time it is processed.
    A request that raises is [None]. *)

Definition market_index_url : string := "https://www.marketindex.com.au/asx/announcements".

(** The dict the loop body appends for a row. *)
Definition market_index_record (time_text company_code company_name title_text date : string)
  : RawRecord :=
  <[ "time" := time_text ]>
  (<[ "company_code" := company_code ]>
  (<[ "company_name" := company_name ]>
  (<[ "title" := title_text ]>
  (<[ "date" := date ]>
  (<[ "url" := market_index_url ]>
  (<[ "content" := title_text ]> ∅)))))).

Section scraper.
(** [self.mining_companies]. *)
Variable mining_companies : list Company.
(** On the text of the company cell: group 1 of
    [re.search(r'\b([A-Z]{2,4})\b', company_text)] when the search
    succeeds. *)
Variable company_match : string → option string.
(** [re.sub(r'\([A-Z]{2,4}\)', '', company_text).strip()]. *)
Variable company_name_of : string → string.

(** The body of the loop over the rows of a table. *)
Definition scrape_row (announcements : list RawRecord) (row : list string * string)
  : list RawRecord :=
  match row.1 with
  | time_text :: company_text :: title_text :: _ =>
      match company_match company_text with
      | Some company_code =>
          if is_mining_company mining_companies company_code then
            let company_name := company_name_of company_text in
            announcements ++
              [ market_index_record time_text company_code company_name title_text row.2 ]
          else announcements
      | None => announcements
      end
  | _ => announcements
  end.

(** The loop over [rows[1:]]: the first row of a table is its header. *)
Definition scrape_table (announcements : list RawRecord) (rows : list (list string * string))
  : list RawRecord :=
  foldl scrape_row announcements (tail rows).

(** [scrape_market_index]. *)
Definition scrape_market_index (response : option (list (list (list string * string))))
  : list RawRecord :=
  match response with
  | Some tables => foldl scrape_table [] tables
  | None => []
  end.
End scraper.

(** [scrape_simply_wall_st] and [scrape_commsec_style]. *)
Definition scrape_simply_wall_st : list RawRecord := [].
Definition scrape_commsec_style : list RawRecord := [].

(** ** Auxiliary notions used by the statements *)

(** The deduplication loop as a recursion on the remaining input. *)
Fixpoint dedupe_from (seen : gset string) (records : list RawRecord) : list RawRecord :=
  match records with
  | [] => []
  | r :: rest =>
      if decide (dedupe_key r ∈ seen) then dedupe_from seen rest
      else r :: dedupe_from ({[ dedupe_key r ]} ∪ seen) rest
  end.

(** [CountOf P l n]: exactly [n] elements of [l] satisfy [P]. *)
Inductive CountOf {A : Type} (P : A → Prop) : list A → nat → Prop :=
  | CountOf_nil : CountOf P [] 0
  | CountOf_hit x l n : P x → CountOf P l n → CountOf P (x :: l) (S n)
  | CountOf_miss x l n : ¬ P x → CountOf P l n → CountOf P (x :: l) n.

(** [KeyPointsOf t kws kps]: [kps] holds one string "Related to k" for each
    keyword [k] of [kws] whose lower-cased form occurs in [t], in the order
    of [kws], and nothing else. *)
Inductive KeyPointsOf (t : string) : list string → list string → Prop :=
  | KeyPointsOf_nil : KeyPointsOf t [] []
  | KeyPointsOf_hit k kws kps :
      Substring (lower k) t → KeyPointsOf t kws kps →
      KeyPointsOf t (k :: kws) (("Related to " +:+ k) :: kps)
  | KeyPointsOf_miss k kws kps :
      ¬ Substring (lower k) t → KeyPointsOf t kws kps →
      KeyPointsOf t (k :: kws) kps.

(** The concatenation of a list of lines. *)
Definition join (lines : list string) : string := foldr String.append "" lines.

(** The shape shared by the two grouping loops of the report: make sure the
    key is present, then update its value. *)
Definition od_step {B V : Type} (key : B → string) (v0 : V) (u : B → V → V)
  (d : list (string * V)) (b : B) : list (string * V) :=
  od_alter (u b) (key b) (if od_mem (key b) d then d else od_insert (key b) v0 d).

(** The value a key ends with, from the value [v] it starts with: the
    updates of the elements that carry the key, in order. *)
Definition od_value {B V : Type} (key : B → string) (u : B → V → V)
  (k : string) (v : V) (l : list B) : V :=
  foldl (λ v b, u b v) v (filter (λ b, key b = k) l).

(** A scan for three hashes in a row: the state is the number of hashes
    that end the text read so far, and 3 once "###" has been read. *)
Fixpoint scan_hashes (st : nat) (s : string) : nat :=
  match s with
  | EmptyString => st
  | String c s' =>
      if 3 <=? st then 3
      else if Ascii.eqb c "#" then scan_hashes (S st) s'
      else scan_hashes 0 s'
  end.

(** Three announcements of companies in the sectors Gold, Gold and Lithium. *)
Definition gold_gold_lithium : list Announcement :=
  [ mkAnnouncement "Newcrest Mining Limited" "NCM"
      "Quarterly production report for Cadia" "Quarterly production report for Cadia"
      "2026-11-04" "08:15" "https://www.marketindex.com.au/asx/announcements" "neutral"
      ["Related to production"];
    mkAnnouncement "Evolution Mining Limited" "EVN"
      "Record gold output at the Cowal operation" "Record gold output at the Cowal operation"
      "2026-11-04" "08:40" "https://www.marketindex.com.au/asx/announcements" "positive"
      ["Related to operation"];
    mkAnnouncement "Pilbara Minerals Limited" "PLS"
      "Offtake agreement signed for spodumene" "Offtake agreement signed for spodumene"
      "2026-11-04" "09:05" "https://www.marketindex.com.au/asx/announcements" "neutral"
      ["Related to offtake"] ].

(** An announcement of a company that is not in the static table. *)
Definition untracked_announcement : Announcement :=
  mkAnnouncement "Zenith Minerals" "ZNC"
    "Drilling results from the Earaheedy project" "Drilling results from the Earaheedy project"
    "2026-11-04" "09:30" "https://www.marketindex.com.au/asx/announcements" "neutral"
    ["Related to drilling"; "Related to project"].

(** Records with a title of 10 and of 30 characters. *)
Definition short_record : RawRecord :=
  {[ "company_code" := "BHP"; "title" := "Appendix 3" ]}.
Definition boundary_record : RawRecord :=
  {[ "company_code" := "RIO"; "title" := "Drilling update - Winu project" ]}.

(** Two records that differ in both fields and share the joined key. *)
Definition collision_first : RawRecord :=
  {[ "company_code" := "A-B"; "title" := "C" ]}.
Definition collision_second : RawRecord :=
  {[ "company_code" := "A"; "title" := "B-C" ]}.

(** A supplemental entry that repeats a code of the static table. *)
Definition supplemental_bhp : Company := mkCompany "BHP" "BHP Supplemental" "Coal".

(** A record whose content is present and empty. *)
Definition empty_content_record : RawRecord :=
  {[ "company_code" := "NCM"; "title" := "Gold discovery at Cadia"; "content" := "" ]}.

(** The text one sentiment group adds to the report: nothing for an empty
    group, else the header, one summary line per announcement in order, and
    an empty line. *)
Definition section_text (summary : Announcement → string) (header : string)
  (group : list Announcement) : string :=
  match group with
  | [] => ""
  | _ :: _ => header +:+ nl +:+ join ((λ a, summary a +:+ nl) <$> group) +:+ nl
  end.

(** The action words of the summary line with their phrases, in the order
    in which the cascade of [format_announcement_summary] tests them. *)
Definition action_table : list (string * string) :=
  [ ("production", "reported production ");
    ("drilling", "announced drilling ");
    ("resource", "updated resource ");
    ("approval", "received approval ");
    ("acquisition", "announced acquisition ") ].

(** [ActionPhrase t table p]: [p] is the phrase of the first word of [table]
    that occurs in [t], and "announced " when none does. *)
Inductive ActionPhrase (t : string) : list (string * string) → string → Prop :=
  | ActionPhrase_none : ActionPhrase t [] "announced "
  | ActionPhrase_hit w p table : Substring w t → ActionPhrase t ((w, p) :: table) p
  | ActionPhrase_miss w p table q :
      ¬ Substring w t → ActionPhrase t table q → ActionPhrase t ((w, p) :: table) q.

(** A stand-in for the search of a company code, for the statements at
    concrete inputs: the first three characters of the cell. *)
Definition leading_code (company_text : string) : option string :=
  Some (String.substring 0 3 company_text).

(** A parsed page: one table with its header row, a row of a tracked
    company, a row with two cells and a row of an untracked company. *)
Definition sample_page : list (list (list string * string)) :=
  [ [ (["Time"; "Company"; "Announcement"], "2026-11-04");
      (["08:15"; "NCM Newcrest Mining"; "Quarterly production report for Cadia"],
       "2026-11-04");
      (["08:20"; "EVN Evolution Mining"], "2026-11-04");
      (["09:30"; "ZNC Zenith Minerals"; "Drilling results from the Earaheedy project"],
       "2026-11-04") ] ].

(** The record of the second row of the sample page. *)
Definition sample_scraped_record : RawRecord :=
  market_index_record "08:15" "NCM" "NCM Newcrest Mining"
    "Quarterly production report for Cadia" "2026-11-04".

(** A record without a title. *)
Definition untitled_record : RawRecord := {[ "company_code" := "BHP" ]}.

(** The strings group 1 of the search for a company code can be: the
    pattern [[A-Z]{2,4}] admits two to four capital letters. *)
Definition is_capital (c : ascii) : bool :=
  let n := nat_of_ascii c in (65 <=? n) && (n <=? 90).

Fixpoint all_capital (s : string) : bool :=
  match s with
  | EmptyString => true
  | String c s' => is_capital c && all_capital s'
  end.

Definition is_ticker (s : string) : bool :=
  (2 <=? String.length s) && (String.length s <=? 4) && all_capital s.

(** A stand-in for the search that keeps to the pattern: the first three
    characters of the cell when they are capital letters. *)
Definition leading_ticker (company_text : string) : option string :=
  let c := String.substring 0 3 company_text in
  if is_ticker c then Some c else None.

(** Three records, the third with the company code and the title of the
    first and another time. *)
Definition repeated_records : list RawRecord :=
  [ {[ "company_code" := "BHP"; "title" := "Quarterly report"; "time" := "08:00" ]};
    {[ "company_code" := "RIO"; "title" := "Quarterly report"; "time" := "08:30" ]};
    {[ "company_code" := "BHP"; "title" := "Quarterly report"; "time" := "09:00" ]} ].

(** A page on which the second and the fourth row repeat a company and a
    title. *)
Definition repeating_page : list (list (list string * string)) :=
  [ [ (["Time"; "Company"; "Announcement"], "2026-11-04");
      (["08:15"; "NCM Newcrest Mining"; "Quarterly production report for Cadia"],
       "2026-11-04");
      (["08:40"; "EVN Evolution Mining"; "Record gold output at the Cowal operation"],
       "2026-11-04");
      (["09:10"; "NCM Newcrest Mining"; "Quarterly production report for Cadia"],
       "2026-11-04") ] ].

(** ** Strings: lemmas *)

Lemma append_cons (a : ascii) (s t : string) : String a s +:+ t = String a (s +:+ t).
Proof. reflexivity. Qed.

Lemma append_nil_l (s : string) : "" +:+ s = s.
Proof. reflexivity. Qed.

Lemma append_nil_r (s : string) : s +:+ "" = s.
Proof. induction s as [|a s IH]; [done|]. by rewrite append_cons, IH. Qed.

Lemma append_assoc (s1 s2 s3 : string) : (s1 +:+ s2) +:+ s3 = s1 +:+ s2 +:+ s3.
Proof. induction s1 as [|a s1 IH]; [done|]. by rewrite !append_cons, IH. Qed.

Lemma starts_with_spec (p s : string) :
  starts_with p s = true ↔ ∃ r, s = p +:+ r.
Proof.
  revert s. induction p as [|a p IH]; intros s.
  - split; [intros _; by exists s | by destruct s].
  - destruct s as [|b s]; cbn.
    + split; [done | intros [r Hr]; discriminate].
    + case_decide as Hab; [subst b | ].
      * rewrite IH. split; intros [r Hr]; exists r.
        -- by rewrite Hr.
        -- rewrite append_cons in Hr. by injection Hr.
      * split; [done | intros [r Hr]]. rewrite append_cons in Hr. congruence.
Qed.

Lemma contains_spec (w s : string) : contains w s = true ↔ Substring w s.
Proof.
  unfold Substring. induction s as [|b s IH]; cbn.
  - rewrite orb_false_r, starts_with_spec. split.
    + intros [r Hr]. by exists "", r.
    + intros ([|x pre] & post & H); [by exists post | discriminate].
  - rewrite orb_true_iff, starts_with_spec, IH. split.
    + intros [[r Hr] | (pre & post & H)].
      * by exists "", r.
      * exists (String b pre), post. by rewrite H.
    + intros ([|x pre] & post & H).
      * left. by exists post.
      * right. exists pre, post. rewrite append_cons in H. by injection H.
Qed.

Lemma not_contains_spec (w s : string) : contains w s = false ↔ ¬ Substring w s.
Proof. rewrite <- contains_spec. by destruct (contains w s). Qed.

Lemma Substring_trans (a b c : string) : Substring a b → Substring b c → Substring a c.
Proof.
  intros (p1 & q1 & ->) (p2 & q2 & ->). exists (p2 +:+ p1), (q1 +:+ q2).
  by rewrite !append_assoc.
Qed.

Lemma has_char_app (c : ascii) (s t : string) :
  has_char c (s +:+ t) = has_char c s || has_char c t.
Proof. induction s as [|a s IH]; [done|]. rewrite append_cons. cbn. by case_decide. Qed.

(** ** Company registry: lemmas *)

Lemma get_company_info_Some cs k c :
  get_company_info cs k = Some c → c ∈ cs ∧ code c = k.
Proof.
  induction cs as [|x cs IH]; cbn; [done|]. case_decide.
  - intros [= ->]. split; [left | done].
  - intros [? ?]%IH. split; [by right | done].
Qed.

Lemma get_company_info_None cs k :
  get_company_info cs k = None ↔ is_mining_company cs k = false.
Proof.
  induction cs as [|x cs IH]; cbn; [done|]. case_decide as H.
  - rewrite bool_decide_eq_true_2 by done. done.
  - rewrite bool_decide_eq_false_2 by done. done.
Qed.

(** ** Deduplication: lemmas *)

Lemma dedupe_foldl (records : list RawRecord) (seen : gset string) (acc : list RawRecord) :
  (foldl dedupe_step (seen, acc) records).2 = acc ++ dedupe_from seen records.
Proof.
  revert seen acc. induction records as [|r rest IH]; intros seen acc; cbn.
  - by rewrite app_nil_r.
  - unfold dedupe_step at 2. cbn. case_decide.
    + apply IH.
    + rewrite IH. by rewrite <- app_assoc.
Qed.

Lemma dedupe_unfold (records : list RawRecord) : dedupe records = dedupe_from ∅ records.
Proof. unfold dedupe. by rewrite dedupe_foldl. Qed.

Lemma dedupe_from_idem (records : list RawRecord) (seen : gset string) :
  dedupe_from seen (dedupe_from seen records) = dedupe_from seen records.
Proof.
  revert seen. induction records as [|r rest IH]; intros seen; cbn; [done|].
  case_decide as Hin; [apply IH|]. cbn. rewrite decide_False by done.
  by rewrite IH.
Qed.

(** A joined key determines the pair when the code holds no hyphen. *)
Lemma joined_key_inj (c1 t1 c2 t2 : string) :
  has_char "-" c1 = false → has_char "-" c2 = false →
  c1 +:+ "-" +:+ t1 = c2 +:+ "-" +:+ t2 → c1 = c2 ∧ t1 = t2.
Proof.
  revert c2. induction c1 as [|a c1 IH]; intros [|b c2];
    rewrite ?append_cons, ?append_nil_l; cbn [has_char].
  - intros _ _ [= ->]. done.
  - case_decide as Hb; [done|]. intros _ _ [= Hab _]. by subst.
  - case_decide as Ha; [done|]. intros _ _ [= Hab _]. by subst.
  - do 2 case_decide; try done. intros H1 H2 [= -> Hrest].
    destruct (IH c2 H1 H2 Hrest) as [-> ->]. done.
Qed.

Lemma dedupe_from_identity (records : list RawRecord) (seen : gset string)
  (pairs : list (string * string)) :
  Forall (λ r, has_char "-" (get r "company_code" "") = false) records →
  (∀ r, has_char "-" (get r "company_code" "") = false →
        dedupe_key r ∈ seen ↔ identity r ∈ pairs) →
  dedupe_from seen records = dedupe_by_identity pairs records.
Proof.
  intros Hall. revert seen pairs.
  induction Hall as [|r rest Hr Hrest IH]; intros seen pairs Hinv; cbn; [done|].
  destruct (decide (dedupe_key r ∈ seen)) as [Hin|Hin].
  - rewrite decide_True by (by apply Hinv). by apply IH.
  - rewrite decide_False by (by rewrite <- Hinv). f_equal. apply IH.
    intros r' Hr'. rewrite elem_of_union, elem_of_singleton, elem_of_cons, Hinv by done.
    split; (intros [Heq | ?]; [left | by right]).
    + unfold dedupe_key in Heq. apply joined_key_inj in Heq as [? ?]; [|done..].
      unfold identity. congruence.
    + unfold identity in Heq. unfold dedupe_key. congruence.
Qed.

(** On records whose company codes hold no hyphen (the codes the page
    scraper extracts are two to four capital letters), the loop keeps
    exactly the first record of each (code, title) pair. *)
Lemma dedupe_by_identity_plain_codes (records : list RawRecord) :
  Forall (λ r, has_char "-" (get r "company_code" "") = false) records →
  dedupe records = dedupe_by_identity [] records.
Proof.
  intros Hall. rewrite dedupe_unfold. apply dedupe_from_identity; [done|].
  intros r _. split; [set_solver | by intros ?%elem_of_nil].
Qed.

(** The joined key tells two pairs apart only while the company code holds
    no hyphen: the pairs [("A-B", "C")] and [("A", "B-C")] differ and share
    the key ["A-B-C"]. *)
Example joined_key_of_hyphenated_code :
  identity collision_first ≠ identity collision_second ∧
  dedupe_key collision_first = dedupe_key collision_second.
Proof.
  split; [intros H; vm_compute in H; discriminate | vm_compute; reflexivity].
Qed.

(** C6.  Deduplication is idempotent: applying the loop to its own output
    returns that output unchanged. *)
Theorem dedupe_idempotent (xs : list RawRecord) : dedupe (dedupe xs) = dedupe xs.
Proof. rewrite !dedupe_unfold. apply dedupe_from_idem. Qed.

(** C2 (as claimed, refuted).  With a supplemental entry for "BHP" merged
    after the static table, the last-loaded entry for "BHP" is the
    supplemental one, and the lookup does not return it. *)
Lemma lookup_is_not_last_loaded :
  let companies := load_mining_companies (Some [supplemental_bhp]) in
  2 ≤ length (filter (λ c, code c = "BHP") companies) ∧
  last (filter (λ c, code c = "BHP") companies) = Some supplemental_bhp ∧
  get_company_info companies "BHP" ≠ Some supplemental_bhp.
Proof.
  cbv zeta. split; [vm_compute; lia|]. split; [vm_compute; reflexivity|].
  intros H. vm_compute in H. discriminate.
Qed.

(** C2 (amended).  The lookup returns the first-loaded entry for a code:
    the first entry of the company list that carries the code, so that an
    entry of the static table shadows a supplemental entry merged after it. *)
Theorem get_company_info_first_loaded :
  (∀ companies k,
     get_company_info companies k = head (filter (λ c, code c = k) companies)) ∧
  (∀ additional k,
     get_company_info (load_mining_companies (Some additional)) k =
     match get_company_info static_companies k with
     | Some c => Some c
     | None => get_company_info additional k
     end).
Proof.
  split.
  - intros companies k. induction companies as [|c cs IH]; [done|].
    cbn [get_company_info]. rewrite filter_cons. by case_decide.
  - intros additional k. unfold load_mining_companies.
    induction static_companies as [|c cs IH]; [done|].
    cbn. by case_decide.
Qed.

(** C3 (as claimed, refuted).  A record whose content field is present and
    empty is classified into an Announcement whose content is empty, not
    its title. *)
Lemma empty_content_is_kept :
  empty_content_record !! "content" = Some "" ∧
  content (analyze_announcement load_config_from_env empty_content_record) = "" ∧
  content (analyze_announcement load_config_from_env empty_content_record)
    ≠ title (analyze_announcement load_config_from_env empty_content_record).
Proof.
  split; [vm_compute; reflexivity|]. split; [vm_compute; reflexivity|].
  intros H. vm_compute in H. discriminate.
Qed.

(** C3 (amended).  The content of the returned Announcement is the record's
    content field whenever that field is present, also when it is the empty
    string; it is the record's title exactly when the field is absent. *)
Theorem content_defaults_to_title_when_absent (config : Config) (ann : RawRecord) :
  content (analyze_announcement config ann) =
    match ann !! "content" with
    | Some c => c
    | None => title (analyze_announcement config ann)
    end.
Proof. cbn. unfold get. by destruct (ann !! "content"). Qed.

(** ** Classification: lemmas *)

Lemma score_acc (kws : list string) (text : string) (acc : nat) :
  foldl (λ acc keyword, if contains keyword text then acc + 1 else acc) acc kws
  = acc + score kws text.
Proof.
  unfold score. revert acc. induction kws as [|k kws IH]; intros acc; cbn; [lia|].
  rewrite IH, (IH (if contains k text then _ else _)).
  destruct (contains k text); lia.
Qed.

Lemma score_CountOf (kws : list string) (text : string) :
  CountOf (λ w, Substring w text) kws (score kws text).
Proof.
  induction kws as [|k kws IH]; [constructor|].
  unfold score. cbn. rewrite score_acc.
  destruct (contains k text) eqn:Hk; cbn.
  - constructor; [by apply contains_spec | done].
  - constructor; [by apply not_contains_spec | done].
Qed.

Lemma CountOf_functional {A} (P : A → Prop) (l : list A) (n m : nat) :
  CountOf P l n → CountOf P l m → n = m.
Proof.
  intros Hn. revert m.
  induction Hn as [|x l n Hx Hn IH|x l n Hx Hn IH]; intros m Hm;
    inversion Hm; subst; try contradiction; auto.
Qed.

Lemma extract_key_points_acc (kws : list string) (t : string) (acc : list string) :
  foldl (λ key_points keyword,
           if contains (lower keyword) t
           then key_points ++ ["Related to " +:+ keyword]
           else key_points) acc kws
  = acc ++ extract_key_points kws t.
Proof.
  unfold extract_key_points. revert acc.
  induction kws as [|k kws IH]; intros acc; cbn; [by rewrite app_nil_r|].
  rewrite IH, (IH (if contains (lower k) t then _ else _)).
  destruct (contains (lower k) t); [|done]. by rewrite <- app_assoc.
Qed.

Lemma KeyPointsOf_functional (t : string) (kws kps1 kps2 : list string) :
  KeyPointsOf t kws kps1 → KeyPointsOf t kws kps2 → kps1 = kps2.
Proof.
  intros H1. revert kps2.
  induction H1 as [|k kws kps Hk H1 IH|k kws kps Hk H1 IH]; intros kps2 H2;
    inversion H2; subst; try contradiction; [done | f_equal; auto | auto].
Qed.

Lemma scan_acc (config : Config) (raws : list RawRecord) (acc : list Announcement) :
  foldl (scan_step config) acc raws =
  acc ++ filter (λ a, ¬ String.length (title a) < min_announcement_length config)
                (analyze_announcement config <$> raws).
Proof.
  revert acc. induction raws as [|r raws IH]; intros acc; [by rewrite app_nil_r|].
  cbn [foldl]. rewrite IH, fmap_cons, filter_cons. unfold scan_step at 1.
  destruct (Nat.leb_spec (min_announcement_length config)
              (String.length (title (analyze_announcement config r)))).
  - rewrite decide_True by lia. by rewrite <- app_assoc.
  - rewrite decide_False by lia. done.
Qed.

(** C4.  The sentiment of the returned Announcement is decided by two
    counts over the lower-cased title: [p], the number of words of the
    positive list that occur in it as substrings, and [n], the same for the
    negative list.  It is positive when [p > n], negative when [n > p], and
    neutral otherwise, which covers 0/0 and equal non-zero counts. *)
Theorem sentiment_by_keyword_counts (config : Config) (ann : RawRecord) :
  ∃ p n,
    CountOf (λ w, Substring w (lower (get ann "title" ""))) positive_keywords p ∧
    CountOf (λ w, Substring w (lower (get ann "title" ""))) negative_keywords n ∧
    sentiment (analyze_announcement config ann) =
      (if n <? p then "positive" else if p <? n then "negative" else "neutral").
Proof.
  exists (score positive_keywords (lower (get ann "title" ""))),
         (score negative_keywords (lower (get ann "title" ""))).
  split; [apply score_CountOf|]. split; [apply score_CountOf|]. reflexivity.
Qed.

(** C7.  The key points of the returned Announcement are the strings
    "Related to k", one for each keyword [k] of the configured list whose
    lower-cased form occurs as a substring of the lower-cased title, in the
    order of the list; equal strings are kept. *)
Theorem key_points_follow_keywords (config : Config) (ann : RawRecord) :
  KeyPointsOf (lower (get ann "title" "")) (keywords config)
              (key_points (analyze_announcement config ann)).
Proof.
  cbn. generalize (lower (get ann "title" "")) as t. intros t.
  induction (keywords config) as [|k kws IH]; [constructor|].
  unfold extract_key_points. cbn. rewrite extract_key_points_acc.
  destruct (contains (lower k) t) eqn:Hk; cbn.
  - constructor; [by apply contains_spec | done].
  - constructor; [by apply not_contains_spec | done].
Qed.

(** ** First occurrences: lemmas *)

Lemma first_occurrences_fresh (seen l : list string) (x : string) :
  x ∈ first_occurrences seen l → (x ∉ seen) ∧ x ∈ l.
Proof.
  revert seen. induction l as [|s l IH]; intros seen; cbn; [by intros ?%elem_of_nil|].
  case_decide as Hs.
  - intros [? ?]%IH. split; [done | by right].
  - rewrite elem_of_cons. intros [-> | [Hx ?]%IH]; [split; [done | left]|].
    split; [|by right]. intros ?. apply Hx. by right.
Qed.

Lemma first_occurrences_ext (seen1 seen2 l : list string) :
  (∀ x, x ∈ seen1 ↔ x ∈ seen2) →
  first_occurrences seen1 l = first_occurrences seen2 l.
Proof.
  revert seen1 seen2. induction l as [|s l IH]; intros seen1 seen2 Hext; cbn; [done|].
  destruct (decide (s ∈ seen1)) as [Hs|Hs].
  - rewrite decide_True by (by apply Hext). by apply IH.
  - rewrite decide_False by (by rewrite <- Hext). f_equal. apply IH.
    intros x. rewrite !elem_of_cons, Hext. done.
Qed.

Lemma first_occurrences_NoDup (seen l : list string) : NoDup (first_occurrences seen l).
Proof.
  revert seen. induction l as [|s l IH]; intros seen; cbn; [constructor|].
  case_decide; [apply IH|]. apply NoDup_cons. split; [|apply IH].
  intros [Hs _]%first_occurrences_fresh. apply Hs. left.
Qed.

(** ** Ordered dictionaries: lemmas *)

Section odict_lemmas.
Context {V : Type}.
Implicit Types (d : list (string * V)) (k : string).

Lemma od_mem_true k d : od_mem k d = true ↔ k ∈ d.*1.
Proof.
  unfold od_mem. induction d as [|[k' v] d IH]; cbn.
  - split; [done | by intros ?%elem_of_nil].
  - rewrite orb_true_iff, bool_decide_eq_true, IH, elem_of_cons.
    split; (intros [? | ?]; [by left | by right]).
Qed.

Lemma od_alter_keys (f : V → V) k d : (od_alter f k d).*1 = d.*1.
Proof.
  induction d as [|[k' v] d IH]; cbn; [done|].
  case_decide; cbn; [done | by rewrite IH].
Qed.

Lemma od_alter_snoc (f : V → V) k v d :
  k ∉ d.*1 → od_alter f k (d ++ [(k, v)]) = d ++ [(k, f v)].
Proof.
  induction d as [|[k' v'] d IH]; cbn.
  - intros _. by rewrite decide_True.
  - rewrite not_elem_of_cons. intros [? ?]. rewrite decide_False by done.
    by rewrite IH.
Qed.

Lemma od_alter_NoDup (f : V → V) k d :
  NoDup d.*1 →
  od_alter f k d = (λ kv, if decide (kv.1 = k) then (kv.1, f kv.2) else kv) <$> d.
Proof.
  induction d as [|[k' v] d IH]; cbn; [done|].
  rewrite NoDup_cons. intros [Hk' Hnd]. case_decide as Hk.
  - f_equal. rewrite <- (list_fmap_id d) at 1. apply Forall_fmap_ext_1, Forall_forall.
    intros [k2 v2] Hin. cbn. rewrite decide_False; [done|].
    intros ->. apply Hk'. subst k'. by apply (list_elem_of_fmap_2 fst) in Hin.
  - by rewrite IH.
Qed.
End odict_lemmas.

Section od_fold.
Context {B V : Type} (key : B → string) (v0 : V) (u : B → V → V).

Lemma od_fold_from (l : list B) (d : list (string * V)) :
  NoDup d.*1 →
  foldl (od_step key v0 u) d l =
    ((λ kv, (kv.1, od_value key u kv.1 kv.2 l)) <$> d)
    ++ ((λ k, (k, od_value key u k v0 l)) <$> first_occurrences d.*1 (key <$> l)).
Proof.
  revert d. induction l as [|b l IH]; intros d Hnd.
  - cbn. rewrite app_nil_r. rewrite <- (list_fmap_id d) at 1.
    apply Forall_fmap_ext_1, Forall_forall. by intros [k v] _.
  - cbn [foldl]. unfold od_step at 2. rewrite fmap_cons. cbn [first_occurrences].
    destruct (od_mem (key b) d) eqn:Hmem.
    + apply od_mem_true in Hmem. rewrite decide_True by done.
      rewrite IH by (by rewrite od_alter_keys). rewrite od_alter_keys.
      rewrite od_alter_NoDup by done. rewrite <- list_fmap_compose. f_equal.
      * apply Forall_fmap_ext_1, Forall_forall. intros [k v] _. cbn [fst snd compose].
        unfold od_value. case_decide as Hk; cbn [fst snd].
        -- subst k. by rewrite filter_cons_True.
        -- by rewrite filter_cons_False by done.
      * apply Forall_fmap_ext_1, Forall_forall.
        intros k [Hk _]%first_occurrences_fresh. unfold od_value.
        rewrite filter_cons_False; [done|]. intros Heq. apply Hk. by rewrite <- Heq.
    + assert (key b ∉ d.*1) as Hfresh.
      { rewrite <- od_mem_true, Hmem. done. }
      rewrite decide_False by done. unfold od_insert. rewrite Hmem.
      rewrite od_alter_snoc by done.
      rewrite IH.
      2:{ rewrite fmap_app. cbn [fmap list_fmap fst]. apply NoDup_app. split; [done|].
          split; [|apply NoDup_singleton].
          intros x Hx ->%list_elem_of_singleton. done. }
      rewrite !fmap_app, <- app_assoc. cbn [fmap list_fmap app fst snd].
      f_equal; [|f_equal].
      * apply Forall_fmap_ext_1, Forall_forall. intros [k v] Hin. cbn [fst snd].
        unfold od_value. rewrite filter_cons_False; [done|].
        intros Hk. apply Hfresh. rewrite Hk. by apply (list_elem_of_fmap_2 fst) in Hin.
      * unfold od_value. by rewrite filter_cons_True.
      * rewrite (first_occurrences_ext _ (key b :: d.*1)).
        2:{ intros x. rewrite elem_of_app, !elem_of_cons, elem_of_nil. tauto. }
        apply Forall_fmap_ext_1, Forall_forall.
        intros k [Hk _]%first_occurrences_fresh. unfold od_value.
        rewrite filter_cons_False; [done|]. intros Heq. apply Hk. rewrite Heq. left.
Qed.

Lemma od_fold (l : list B) :
  foldl (od_step key v0 u) [] l =
    (λ k, (k, foldl (λ v b, u b v) v0 (filter (λ b, key b = k) l)))
      <$> first_occurrences [] (key <$> l).
Proof. rewrite od_fold_from by constructor. done. Qed.
End od_fold.

(** ** Sorting: lemmas *)

Section sorted_lemmas.
Context {A : Type} (le : A → A → bool).
Hypothesis le_total : ∀ x y, le x y = false → le y x = true.
Hypothesis le_trans : ∀ x y z, le x y = true → le y z = true → le x z = true.

Lemma insert_sorted_perm (x : A) (l : list A) : insert_sorted le x l ≡ₚ x :: l.
Proof.
  induction l as [|y l IH]; cbn; [done|].
  destruct (le x y); [done|]. rewrite IH. apply Permutation_swap.
Qed.

Lemma sorted_perm (l : list A) : sorted le l ≡ₚ l.
Proof.
  induction l as [|x l IH]; cbn; [done|].
  unfold sorted in IH. by rewrite insert_sorted_perm, IH.
Qed.

Lemma insert_sorted_ordered (x : A) (l : list A) :
  StronglySorted (λ a b, le a b = true) l →
  StronglySorted (λ a b, le a b = true) (insert_sorted le x l).
Proof.
  induction 1 as [|y l Hl IH Hy]; cbn; [repeat constructor|].
  destruct (le x y) eqn:Hxy.
  - constructor; [by constructor|]. constructor; [done|].
    eapply Forall_impl; [exact Hy|]. intros z Hz. by eapply le_trans.
  - constructor; [done|]. rewrite insert_sorted_perm. constructor; [|done].
    by apply le_total.
Qed.

Lemma sorted_ordered (l : list A) : StronglySorted (λ a b, le a b = true) (sorted le l).
Proof.
  induction l as [|x l IH]; cbn; [constructor|]. by apply insert_sorted_ordered.
Qed.

(** Stability: the elements that share a key keep their relative order. *)
Lemma sorted_stable {K : Type} `{EqDecision K} (key : A → K) (l : list A) (c : K) :
  (∀ x y, key x = key y → le x y = true) →
  filter (λ x, key x = c) (sorted le l) = filter (λ x, key x = c) l.
Proof.
  intros Hkey.
  assert (∀ x l, filter (λ x, key x = c) (insert_sorted le x l)
                 = filter (λ x, key x = c) (x :: l)) as Hins.
  { clear l. intros x l. induction l as [|y l IH]; cbn [insert_sorted]; [done|].
    destruct (le x y) eqn:Hxy; [done|].
    assert (key x ≠ key y) as Hne by (intros Heq; rewrite Hkey in Hxy; done).
    rewrite (filter_cons _ y), IH, !(filter_cons _ x), (filter_cons _ y).
    repeat case_decide; congruence. }
  induction l as [|x l IH]; [done|].
  cbn [sorted foldr]. rewrite Hins, !(filter_cons _ x).
  unfold sorted in IH. by rewrite IH.
Qed.
End sorted_lemmas.

(** ** Rendering loops: lemmas *)

Lemma join_app (l1 l2 : list string) : join (l1 ++ l2) = join l1 +:+ join l2.
Proof.
  induction l1 as [|x l1 IH]; [done|].
  cbn [join foldr app]. fold (join (l1 ++ l2)) (join l1).
  by rewrite IH, append_assoc.
Qed.

Lemma foldl_append {A : Type} (f : A → string) (l : list A) (r : string) :
  foldl (λ r x, r +:+ f x) r l = r +:+ join (f <$> l).
Proof.
  revert r. induction l as [|x l IH]; intros r; cbn [foldl].
  - cbn. by rewrite append_nil_r.
  - rewrite IH, append_assoc. done.
Qed.

Lemma foldl_append_option {A : Type} (g : A → option string) (l : list A) (r : string) :
  foldl (λ acc item, r ← acc; line ← g item; Some (r +:+ line)) (Some r) l
  = lines ← mapM g l; Some (r +:+ join lines).
Proof.
  assert (∀ l, foldl (λ acc item, r ← acc; line ← g item; Some (r +:+ line)) None l = None)
    as Hnone by (intros l'; induction l' as [|? ? IH']; [done | exact IH']).
  revert r. induction l as [|x l IH]; intros r; cbn [foldl].
  - cbn. by rewrite append_nil_r.
  - cbn [mbind option_bind mapM]. destruct (g x) as [line|]; cbn [mbind option_bind].
    + rewrite IH. destruct (mapM g l) as [lines|]; cbn; [|done].
      by rewrite append_assoc.
    + apply Hnone.
Qed.

Lemma Permutation_two_and_one {A : Type} (l : list A) (a b : A) :
  l ≡ₚ [a; a; b] → l = [a; a; b] ∨ l = [a; b; a] ∨ l = [b; a; a].
Proof.
  intros H. symmetry in H.
  assert (a ∈ l) as [l1 [l2 ->]]%list_elem_of_split by (rewrite <- H; left).
  apply Permutation_cons_app_inv, Permutation_length_2_inv in H.
  destruct H as [H|H]; destruct l1 as [|x [|y [|z l1]]]; simplify_eq/=; auto.
Qed.

Lemma first_occurrences_complete (seen l : list string) (x : string) :
  x ∈ l → x ∉ seen → x ∈ first_occurrences seen l.
Proof.
  revert seen. induction l as [|s l IH]; intros seen; cbn; [by intros ?%elem_of_nil|].
  rewrite elem_of_cons. intros Hx Hseen. case_decide as Hs.
  - destruct Hx as [-> | Hx]; [done | by apply IH].
  - destruct (decide (x = s)) as [-> | Hne]; [left|].
    right. destruct Hx as [? | Hx]; [done|]. apply IH; [done|].
    rewrite not_elem_of_cons. done.
Qed.

Lemma StronglySorted_impl {A : Type} (R1 R2 : A → A → Prop) (l : list A) :
  (∀ x y, R1 x y → R2 x y) → StronglySorted R1 l → StronglySorted R2 l.
Proof.
  intros HR. induction 1 as [|x l Hl IH Hx]; constructor; [done|].
  eapply Forall_impl; [exact Hx | auto].
Qed.

(** ** Scanning for a section header: lemmas *)

Lemma scan_hashes_found (s : string) : scan_hashes 3 s = 3.
Proof. by destruct s. Qed.

Lemma scan_hashes_app (a b : string) (st : nat) :
  scan_hashes st (a +:+ b) = scan_hashes (scan_hashes st a) b.
Proof.
  revert st. induction a as [|c a IH]; intros st; [done|].
  rewrite append_cons. cbn [scan_hashes].
  destruct (3 <=? st); [by rewrite scan_hashes_found|].
  destruct (Ascii.eqb c "#"); apply IH.
Qed.

Lemma scan_hashes_Substring (s : string) : Substring "###" s → scan_hashes 0 s = 3.
Proof.
  intros (pre & post & ->). rewrite !scan_hashes_app.
  assert (scan_hashes (scan_hashes 0 pre) "###" = 3) as ->; [|apply scan_hashes_found].
  by destruct (scan_hashes 0 pre) as [|[|[|[|?]]]].
Qed.

Lemma scan_hashes_plain (s : string) : has_char "#" s = false → scan_hashes 0 s = 0.
Proof.
  induction s as [|c s IH]; cbn; [done|]. case_decide as Hc; [done|].
  intros Hs. destruct (Ascii.eqb_spec c "#"); [done | auto].
Qed.

Lemma scan_hashes_next (a b : string) :
  scan_hashes 0 a = 0 → scan_hashes 0 (a +:+ b) = scan_hashes 0 b.
Proof. intros Ha. by rewrite scan_hashes_app, Ha. Qed.

Lemma str_plain (n : nat) : has_char "#" (str n) = false.
Proof.
  unfold str. generalize (Nat.to_uint n) as u.
  induction u as [|u IH|u IH|u IH|u IH|u IH|u IH|u IH|u IH|u IH|u IH]; cbn; done.
Qed.

(** ** Report building: lemmas and properties *)

Section report_properties.
Variable mining_companies : list Company.
Variables now_date now_stamp : string.
Variables project_match location_match : string → option string.
Variable numbers : string → list string.

Lemma tally_unfold (announcements : list Announcement) :
  foldl (tally_step mining_companies) [] announcements
  = discovered_sectors mining_companies announcements.
Proof.
  change (tally_step mining_companies)
    with (od_step (summary_sector mining_companies) 0 (λ _ : Announcement, S)).
  rewrite od_fold. unfold discovered_sectors.
  apply Forall_fmap_ext_1, Forall_forall. intros s _. f_equal.
  generalize (filter (λ a, summary_sector mining_companies a = s) announcements) as l.
  assert (∀ (l : list Announcement) n, foldl (λ v _, S v) n l = n + length l) as Hlen.
  { intros l. induction l as [|x l IH]; intros n; cbn; [lia|]. rewrite IH. lia. }
  intros l. by rewrite Hlen.
Qed.

Lemma groups_unfold (announcements : list Announcement) :
  foldl group_step [] announcements
  = (λ k, (k, filter (λ a, company_code a = k) announcements))
      <$> first_occurrences [] (company_code <$> announcements).
Proof.
  change group_step with (od_step company_code [] (λ (a : Announcement) l, l ++ [a])).
  rewrite od_fold. apply Forall_fmap_ext_1, Forall_forall. intros k _. f_equal.
  generalize (filter (λ a, company_code a = k) announcements) as l.
  assert (∀ (l acc : list Announcement), foldl (λ v b, v ++ [b]) acc l = acc ++ l) as Happ.
  { intros l. induction l as [|x l IH]; intros acc; cbn; [by rewrite app_nil_r|].
    by rewrite IH, <- app_assoc. }
  intros l. by rewrite Happ.
Qed.

Lemma company_items_elem (announcements : list Announcement)
  (item : string * list Announcement) :
  item ∈ company_items announcements ↔
  ∃ a, a ∈ announcements ∧
       item = (company_code a, filter (λ x, company_code x = company_code a) announcements).
Proof.
  unfold company_items. rewrite sorted_perm, groups_unfold, list_elem_of_fmap. split.
  - intros (k & -> & [_ Hk]%first_occurrences_fresh).
    apply list_elem_of_fmap in Hk as (a & -> & Ha). by exists a.
  - intros (a & Ha & ->). exists (company_code a). split; [done|].
    apply first_occurrences_complete; [by apply list_elem_of_fmap_2|].
    by intros ?%elem_of_nil.
Qed.

Lemma breakdown_lines_total (announcements : list Announcement) :
  ∃ lines, mapM (breakdown_line mining_companies) (company_items announcements) = Some lines.
Proof.
  apply mapM_is_Some, Forall_forall. intros item (a & Ha & ->)%company_items_elem.
  unfold breakdown_line, compose. cbn [fst snd].
  destruct (get_company_info mining_companies (company_code a)); [done|].
  assert (a ∈ filter (λ x, company_code x = company_code a) announcements) as Hin
    by (by apply list_elem_of_filter).
  destruct (filter _ announcements); [by apply elem_of_nil in Hin | done].
Qed.

(** The report of a non-empty sequence is returned, and it ends with the
    company breakdown, the sector summary and the footer. *)
Lemma report_structure (announcements : list Announcement) :
  announcements ≠ [] →
  ∃ lines,
    mapM (breakdown_line mining_companies) (company_items announcements) = Some lines ∧
    generate_daily_report mining_companies now_date now_stamp
      project_match location_match numbers announcements
    = Some (key_announcements now_date project_match location_match numbers announcements
            +:+ "## Company Breakdown" +:+ nl
            +:+ join lines
            +:+ sector_summary_head
            +:+ join (sector_line <$> sector_items mining_companies announcements)
            +:+ report_foot mining_companies now_stamp).
Proof.
  intros Hne. destruct (breakdown_lines_total announcements) as [lines Hlines].
  exists lines. split; [done|].
  destruct announcements as [|a rest]; [done|].
  unfold generate_daily_report. cbv beta iota zeta.
  fold (key_announcements now_date project_match location_match numbers (a :: rest)).
  rewrite foldl_append_option, Hlines. cbn [mbind option_bind].
  rewrite foldl_append. by rewrite !append_assoc.
Qed.

(** C8.  In the report of a non-empty sequence, the lines of the sector
    summary list each sector once with the number of announcements tallied
    under it, in descending order of that number, and sectors with equal
    numbers keep the order in which the scan of the announcements first
    met them.  For announcements whose sectors are Gold, Gold and Lithium,
    in any order, the summary is the line of Gold with 2 and then the
    line of Lithium with 1. *)
Theorem sector_summary_order (announcements : list Announcement) :
  announcements ≠ [] →
  ∃ before,
    generate_daily_report mining_companies now_date now_stamp
      project_match location_match numbers announcements
    = Some (before
            +:+ sector_summary_head
            +:+ join (sector_line <$> sector_items mining_companies announcements)
            +:+ report_foot mining_companies now_stamp) ∧
    sector_items mining_companies announcements
      ≡ₚ discovered_sectors mining_companies announcements ∧
    StronglySorted (λ x y, y.2 ≤ x.2) (sector_items mining_companies announcements) ∧
    (∀ c, filter (λ x, x.2 = c) (sector_items mining_companies announcements)
          = filter (λ x, x.2 = c) (discovered_sectors mining_companies announcements)) ∧
    (summary_sector mining_companies <$> announcements ≡ₚ ["Gold"; "Gold"; "Lithium"] →
     join (sector_line <$> sector_items mining_companies announcements)
     = "- Gold: 2 announcement(s)" +:+ nl +:+ "- Lithium: 1 announcement(s)" +:+ nl).
Proof.
  intros Hne. destruct (report_structure announcements Hne) as (lines & _ & Hreport).
  exists (key_announcements now_date project_match location_match numbers announcements
          +:+ "## Company Breakdown" +:+ nl +:+ join lines).
  split; [by rewrite Hreport, !append_assoc|].
  unfold sector_items. rewrite tally_unfold.
  split; [apply sorted_perm|].
  split.
  { eapply StronglySorted_impl; [|apply (sorted_ordered count_ge)].
    - intros x y. unfold count_ge. by intros ?%Nat.leb_le.
    - intros x y. unfold count_ge. intros ?%Nat.leb_gt. apply Nat.leb_le. lia.
    - intros x y z. unfold count_ge. intros ?%Nat.leb_le ?%Nat.leb_le.
      apply Nat.leb_le. lia. }
  split.
  { intros c. apply (sorted_stable count_ge snd).
    intros x y Hxy. unfold count_ge. apply Nat.leb_le. by rewrite Hxy. }
  intros Hperm. rewrite <- tally_unfold.
  change (tally_step mining_companies)
    with (λ T a, od_step id 0 (λ _ : string, S) T (summary_sector mining_companies a)).
  rewrite <- (foldl_fmap (od_step id 0 (λ _ : string, S))).
  apply Permutation_two_and_one in Hperm as [-> | [-> | ->]]; vm_compute; reflexivity.
Qed.

(** C9.  The report of the empty sequence is returned as a normal result.
    It holds the phrase that no announcements were found and the number of
    monitored companies.  None of the three per-sentiment section headers
    occurs in it, the clock strings being those of [strftime] for the two
    formats used, which hold no hash. *)
Theorem empty_report_no_announcements :
  ∃ report,
    generate_daily_report mining_companies now_date now_stamp
      project_match location_match numbers [] = Some report ∧
    Substring no_announcements_phrase report ∧
    Substring ("The scanner checked " +:+ str (length mining_companies)
               +:+ " mining companies") report ∧
    Substring ("Monitoring " +:+ str (length mining_companies)
               +:+ " ASX mining companies") report ∧
    (has_char "#" now_date = false →
     has_char "#" now_stamp = false →
     ¬ Substring positive_header report ∧
     ¬ Substring neutral_header report ∧
     ¬ Substring negative_header report).
Proof.
  exists (empty_report mining_companies now_date now_stamp).
  split; [done|].
  split.
  { exists (nl +:+ "# ASX Mining Daily Report - " +:+ now_date +:+ nl +:+ nl
            +:+ "## Summary" +:+ nl). eexists.
    unfold empty_report. rewrite !append_assoc. reflexivity. }
  split.
  { exists (nl +:+ "# ASX Mining Daily Report - " +:+ now_date +:+ nl +:+ nl
            +:+ "## Summary" +:+ nl +:+ no_announcements_phrase +:+ nl +:+ nl).
    exists (" but found no new announcements meeting the criteria." +:+ nl +:+ nl
            +:+ "---" +:+ nl +:+ "*Report generated at " +:+ now_stamp +:+ " UTC*" +:+ nl
            +:+ "*Monitoring " +:+ str (length mining_companies)
            +:+ " ASX mining companies*" +:+ nl).
    unfold empty_report. rewrite !append_assoc. reflexivity. }
  split.
  { exists (nl +:+ "# ASX Mining Daily Report - " +:+ now_date +:+ nl +:+ nl
            +:+ "## Summary" +:+ nl +:+ no_announcements_phrase +:+ nl +:+ nl
            +:+ "The scanner checked " +:+ str (length mining_companies)
            +:+ " mining companies but found no new announcements meeting the criteria."
            +:+ nl +:+ nl +:+ "---" +:+ nl
            +:+ "*Report generated at " +:+ now_stamp +:+ " UTC*" +:+ nl +:+ "*").
    exists ("*" +:+ nl).
    unfold empty_report. rewrite !append_assoc. reflexivity. }
  intros Hdate Hstamp.
  assert (¬ Substring "###" (empty_report mining_companies now_date now_stamp)) as Hnone.
  { intros Hsub%scan_hashes_Substring. revert Hsub. unfold empty_report.
    rewrite !scan_hashes_next;
      [done | first [ reflexivity | by apply scan_hashes_plain
                    | apply scan_hashes_plain, str_plain ] ..]. }
  repeat split; intros Hsub; apply Hnone;
    (eapply Substring_trans; [|exact Hsub]); apply contains_spec; reflexivity.
Qed.

(** C10.  For an announcement whose company code is not in the company
    list, the company breakdown of the report holds the line of that code
    with the sector label "Mining", and the sector summary counts the
    announcement under the label "Other". *)
Theorem untracked_company_labels (announcements : list Announcement) (a : Announcement) :
  a ∈ announcements →
  get_company_info mining_companies (company_code a) = None →
  ∃ lines first n,
    generate_daily_report mining_companies now_date now_stamp
      project_match location_match numbers announcements
    = Some (key_announcements now_date project_match location_match numbers announcements
            +:+ "## Company Breakdown" +:+ nl
            +:+ join lines
            +:+ sector_summary_head
            +:+ join (sector_line <$> sector_items mining_companies announcements)
            +:+ report_foot mining_companies now_stamp) ∧
    head (filter (λ x, company_code x = company_code a) announcements) = Some first ∧
    ("**" +:+ company_name first +:+ " (" +:+ company_code a +:+ ")** - Mining: "
     +:+ str (length (filter (λ x, company_code x = company_code a) announcements))
     +:+ " announcement(s)" +:+ nl) ∈ lines ∧
    summary_sector mining_companies a = "Other" ∧
    n = length (filter (λ x, summary_sector mining_companies x = "Other") announcements) ∧
    1 ≤ n ∧
    ("Other", n) ∈ sector_items mining_companies announcements ∧
    sector_line ("Other", n)
      ∈ sector_line <$> sector_items mining_companies announcements.
Proof.
  intros Ha Hinfo.
  assert (announcements ≠ []) as Hne by (intros ->; by apply elem_of_nil in Ha).
  destruct (report_structure announcements Hne) as (lines & Hlines & Hreport).
  assert (summary_sector mining_companies a = "Other") as Hsector
    by (unfold summary_sector; by rewrite Hinfo).
  assert (a ∈ filter (λ x, company_code x = company_code a) announcements) as Hgroup
    by (by apply list_elem_of_filter).
  assert ((company_code a, filter (λ x, company_code x = company_code a) announcements)
            ∈ company_items announcements) as Hitem
    by (apply company_items_elem; by exists a).
  destruct (filter (λ x, company_code x = company_code a) announcements)
    as [|first group] eqn:Hg; [by apply elem_of_nil in Hgroup|].
  set (others := filter (λ x, summary_sector mining_companies x = "Other") announcements).
  assert (a ∈ others) as Hothers by (by apply list_elem_of_filter).
  exists lines, first, (length others).
  split; [done|]. split; [done|]. split.
  { apply list_elem_of_lookup in Hitem as [i Hi].
    apply mapM_Some in Hlines.
    destruct (Forall2_lookup_l _ _ _ _ _ Hlines Hi) as (line & Hline & Hrender).
    apply list_elem_of_lookup. exists i. rewrite Hline. f_equal.
    unfold breakdown_line in Hrender. cbn [fst snd] in Hrender.
    rewrite Hinfo in Hrender. cbn in Hrender. by injection Hrender as <-. }
  split; [done|]. split; [done|]. split.
  { destruct others; [by apply elem_of_nil in Hothers | cbn; lia]. }
  assert (("Other", length others) ∈ sector_items mining_companies announcements) as Hin.
  { unfold sector_items. rewrite sorted_perm, tally_unfold. unfold discovered_sectors.
    apply list_elem_of_fmap. exists "Other". split; [done|].
    apply first_occurrences_complete; [|by intros ?%elem_of_nil].
    rewrite <- Hsector. by apply list_elem_of_fmap_2. }
  split; [done|]. by apply list_elem_of_fmap_2.
Qed.
End report_properties.

(** ** The quality gate of the scan *)

(** C5.  The filtering loop classifies every record and keeps the classified
    Announcement exactly when its title is not shorter than the configured
    minimum, so the report is built from those announcements only.  The
    configured minimum is 30: an Announcement with a title of 10 characters
    is never kept, and the Announcement of a record with a title of exactly
    30 characters is kept. *)
Theorem quality_gate_after_classification :
  (∀ config raws,
     analyze_all config raws =
     filter (λ a, ¬ String.length (title a) < min_announcement_length config)
            (analyze_announcement config <$> raws)) ∧
  (∀ config companies now_date now_stamp project_match location_match numbers
     market_index simply_wall_st commsec_style,
     run_daily_scan config companies now_date now_stamp project_match location_match
       numbers market_index simply_wall_st commsec_style =
     generate_daily_report companies now_date now_stamp project_match location_match numbers
       (filter (λ a, ¬ String.length (title a) < min_announcement_length config)
          (analyze_announcement config
             <$> get_asx_announcements market_index simply_wall_st commsec_style))) ∧
  min_announcement_length load_config_from_env = 30 ∧
  (∀ raws a,
     String.length (title a) = 10 → a ∉ analyze_all load_config_from_env raws) ∧
  (∀ raws r,
     r ∈ raws → String.length (get r "title" "") = 30 →
     analyze_announcement load_config_from_env r ∈ analyze_all load_config_from_env raws).
Proof.
  assert (∀ config raws,
     analyze_all config raws =
     filter (λ a, ¬ String.length (title a) < min_announcement_length config)
            (analyze_announcement config <$> raws)) as Hgate.
  { intros config raws. unfold analyze_all. by rewrite scan_acc. }
  split; [done|].
  split; [intros; unfold run_daily_scan; by rewrite Hgate|].
  split; [done|].
  split.
  - intros raws a Hlen. rewrite Hgate, list_elem_of_filter. intros [Hkeep _].
    apply Hkeep. rewrite Hlen. cbn. lia.
  - intros raws r Hr Hlen. rewrite Hgate, list_elem_of_filter.
    split; [|by apply list_elem_of_fmap_2]. cbn. rewrite Hlen. lia.
Qed.

(** ** The statements at concrete inputs *)

Example sentiment_tie_is_neutral :
  sentiment (analyze_announcement load_config_from_env
               {[ "title" := "Exploration and production update" ]}) = "neutral".
Proof. vm_compute. reflexivity. Qed.

Example sentiment_positive :
  sentiment (analyze_announcement load_config_from_env
               {[ "title" := "Company reports record high-grade gold discovery" ]})
  = "positive".
Proof. vm_compute. reflexivity. Qed.

Example sentiment_negative :
  sentiment (analyze_announcement load_config_from_env
               {[ "title" := "Company announces mine closure and production halt" ]})
  = "negative".
Proof. vm_compute. reflexivity. Qed.

Example key_points_in_keyword_order :
  key_points (analyze_announcement load_config_from_env
                {[ "title" := "Mine EXPANSION after drilling" ]})
  = ["Related to drilling"; "Related to expansion"; "Related to mine"].
Proof. vm_compute. reflexivity. Qed.

Example dedupe_keeps_first_of_equal_pairs :
  dedupe [ {[ "company_code" := "BHP"; "title" := "Quarterly report"; "time" := "08:00" ]};
           {[ "company_code" := "RIO"; "title" := "Quarterly report"; "time" := "08:30" ]};
           {[ "company_code" := "BHP"; "title" := "Quarterly report"; "time" := "09:00" ]} ]
  = [ {[ "company_code" := "BHP"; "title" := "Quarterly report"; "time" := "08:00" ]};
      {[ "company_code" := "RIO"; "title" := "Quarterly report"; "time" := "08:30" ]} ].
Proof. vm_compute. reflexivity. Qed.

Example dedupe_is_case_sensitive :
  length (dedupe [ {[ "company_code" := "BHP"; "title" := "Quarterly report" ]};
                   {[ "company_code" := "BHP"; "title" := "quarterly report" ]} ]) = 2.
Proof. vm_compute. reflexivity. Qed.

Example breakdown_sorted_by_code :
  (company_items (untracked_announcement :: gold_gold_lithium)).*1
  = ["EVN"; "NCM"; "PLS"; "ZNC"].
Proof. vm_compute. reflexivity. Qed.

Example sector_lines_of_example :
  sector_items static_companies (untracked_announcement :: gold_gold_lithium)
  = [("Gold", 2); ("Other", 1); ("Lithium", 1)].
Proof. vm_compute. reflexivity. Qed.

(** The gate on a record with a title of 10 characters and on one with a
    title of 30 characters. *)
Lemma quality_gate_witness :
  (analyze_announcement load_config_from_env short_record
     ∉ analyze_all load_config_from_env [short_record; boundary_record]) ∧
  analyze_announcement load_config_from_env boundary_record
    ∈ analyze_all load_config_from_env [short_record; boundary_record].
Proof.
  destruct quality_gate_after_classification as (_ & _ & _ & Hout & Hin).
  split.
  - apply Hout. vm_compute. reflexivity.
  - apply Hin; [apply list_elem_of_further, list_elem_of_here | vm_compute; reflexivity].
Defined.

(** The sector summary of three announcements of Newcrest, Evolution and
    Pilbara Minerals. *)
Lemma sector_summary_order_witness :
  gold_gold_lithium ≠ [] ∧
  summary_sector static_companies <$> gold_gold_lithium ≡ₚ ["Gold"; "Gold"; "Lithium"] ∧
  join (sector_line <$> sector_items static_companies gold_gold_lithium)
  = "- Gold: 2 announcement(s)" +:+ nl +:+ "- Lithium: 1 announcement(s)" +:+ nl.
Proof.
  assert (gold_gold_lithium ≠ []) as Hne by (unfold gold_gold_lithium; discriminate).
  assert (summary_sector static_companies <$> gold_gold_lithium
            ≡ₚ ["Gold"; "Gold"; "Lithium"]) as Hperm by (vm_compute; reflexivity).
  destruct (sector_summary_order static_companies "November 04, 2026"
              "2026-11-04 08:00:00" (λ _, None) (λ _, None) (λ _, [])
              gold_gold_lithium Hne) as (before & _ & _ & _ & _ & Hexample).
  split; [exact Hne|]. split; [exact Hperm|]. exact (Hexample Hperm).
Defined.

(** The empty report over the static table, for a clock reading of
    4 November 2026, 08:00:00. *)
Lemma empty_report_witness :
  has_char "#" "November 04, 2026" = false ∧
  has_char "#" "2026-11-04 08:00:00" = false ∧
  ∃ report,
    generate_daily_report static_companies "November 04, 2026" "2026-11-04 08:00:00"
      (λ _, None) (λ _, None) (λ _, []) [] = Some report ∧
    Substring no_announcements_phrase report ∧
    Substring ("The scanner checked 53 mining companies") report ∧
    Substring ("Monitoring 53 ASX mining companies") report ∧
    ¬ Substring positive_header report ∧
    ¬ Substring neutral_header report ∧
    ¬ Substring negative_header report.
Proof.
  split; [reflexivity|]. split; [reflexivity|].
  destruct (empty_report_no_announcements static_companies "November 04, 2026"
              "2026-11-04 08:00:00" (λ _, None) (λ _, None) (λ _, []))
    as (report & Hreport & Hphrase & Hchecked & Hmonitoring & Hnone).
  exists report. split; [exact Hreport|]. split; [exact Hphrase|].
  split; [exact Hchecked|]. split; [exact Hmonitoring|].
  apply Hnone; reflexivity.
Defined.

(** The two labels of an announcement of the untracked code ZNC. *)
Lemma untracked_company_labels_witness :
  untracked_announcement ∈ gold_gold_lithium ++ [untracked_announcement] ∧
  get_company_info static_companies (company_code untracked_announcement) = None ∧
  ∃ (lines : list string) first n,
    head (filter (λ x, company_code x = "ZNC") (gold_gold_lithium ++ [untracked_announcement]))
      = Some first ∧
    ("**" +:+ company_name first +:+ " (ZNC)** - Mining: "
     +:+ str (length (filter (λ x, company_code x = "ZNC")
                        (gold_gold_lithium ++ [untracked_announcement])))
     +:+ " announcement(s)" +:+ nl) ∈ lines ∧
    summary_sector static_companies untracked_announcement = "Other" ∧
    ("Other", n)
      ∈ sector_items static_companies (gold_gold_lithium ++ [untracked_announcement]).
Proof.
  assert (untracked_announcement ∈ gold_gold_lithium ++ [untracked_announcement]) as Hin
    by (apply elem_of_app; right; apply list_elem_of_here).
  assert (get_company_info static_companies (company_code untracked_announcement) = None)
    as Hinfo by (vm_compute; reflexivity).
  split; [exact Hin|]. split; [exact Hinfo|].
  destruct (untracked_company_labels static_companies "November 04, 2026"
              "2026-11-04 08:00:00" (λ _, None) (λ _, None) (λ _, [])
              _ _ Hin Hinfo)
    as (lines & first & n & _ & Hfirst & Hline & Hsector & _ & _ & Hn & _).
  exists lines, first, n. split; [exact Hfirst|]. split; [exact Hline|].
  split; [exact Hsector | exact Hn].
Defined.

(** * Further properties of the code *)

(** ** Deduplication: what the loop keeps *)

Lemma dedupe_from_sublist (records : list RawRecord) (seen : gset string) :
  dedupe_from seen records `sublist_of` records.
Proof.
  revert seen. induction records as [|r rest IH]; intros seen; cbn; [done|].
  case_decide; [by apply sublist_cons | by apply sublist_skip].
Qed.

Lemma dedupe_from_fresh (records : list RawRecord) (seen : gset string) (r : RawRecord) :
  r ∈ dedupe_from seen records → dedupe_key r ∉ seen.
Proof.
  revert seen. induction records as [|x rest IH]; intros seen; cbn;
    [by intros ?%elem_of_nil|].
  case_decide as Hx; [apply IH|].
  rewrite elem_of_cons. intros [-> | Hr%IH]; [done|].
  by apply not_elem_of_union in Hr as [_ ?].
Qed.

Lemma dedupe_from_NoDup (records : list RawRecord) (seen : gset string) :
  NoDup (dedupe_key <$> dedupe_from seen records).
Proof.
  revert seen. induction records as [|x rest IH]; intros seen; cbn; [constructor|].
  case_decide as Hx; [apply IH|]. rewrite fmap_cons. apply NoDup_cons. split; [|apply IH].
  intros (r & Hkey & Hr%dedupe_from_fresh)%list_elem_of_fmap.
  apply Hr. rewrite <- Hkey. apply elem_of_union_l, elem_of_singleton_2. done.
Qed.

Lemma dedupe_from_cover (records : list RawRecord) (seen : gset string) (r : RawRecord) :
  r ∈ records → dedupe_key r ∉ seen →
  ∃ r', r' ∈ dedupe_from seen records ∧ dedupe_key r' = dedupe_key r.
Proof.
  revert seen. induction records as [|x rest IH]; intros seen; cbn;
    [by intros ?%elem_of_nil|].
  rewrite elem_of_cons. intros Hr Hseen. case_decide as Hx.
  - destruct Hr as [-> | Hr]; [done | by apply IH].
  - destruct (decide (dedupe_key x = dedupe_key r)) as [Heq | Hne].
    + exists x. split; [left | done].
    + destruct Hr as [-> | Hr]; [done|].
      destruct (IH ({[dedupe_key x]} ∪ seen) Hr) as (r' & Hr' & Hkey).
      { rewrite not_elem_of_union, not_elem_of_singleton. split; [congruence | done]. }
      exists r'. split; [by right | done].
Qed.

Lemma dedupe_from_first (records : list RawRecord) (seen : gset string) (r : RawRecord) :
  r ∈ dedupe_from seen records →
  ∃ pre post, records = pre ++ r :: post ∧
              Forall (λ r', dedupe_key r' ≠ dedupe_key r) pre.
Proof.
  revert seen. induction records as [|x rest IH]; intros seen; cbn;
    [by intros ?%elem_of_nil|].
  case_decide as Hx.
  - intros Hr. pose proof (dedupe_from_fresh _ _ _ Hr) as Hfresh.
    destruct (IH _ Hr) as (pre & post & -> & Hpre).
    exists (x :: pre), post. split; [done|]. constructor; [|done].
    intros Heq. apply Hfresh. by rewrite <- Heq.
  - rewrite elem_of_cons. intros [-> | Hr]; [by exists [], rest|].
    pose proof (dedupe_from_fresh _ _ _ Hr) as Hfresh.
    destruct (IH _ Hr) as (pre & post & -> & Hpre).
    exists (x :: pre), post. split; [done|]. constructor; [|done].
    intros Heq. apply Hfresh. rewrite <- Heq. apply elem_of_union_l, elem_of_singleton_2. done.
Qed.

Lemma dedupe_from_app (xs ys : list RawRecord) (seen : gset string) :
  dedupe_from seen (xs ++ ys)
  = dedupe_from seen xs ++ dedupe_from (list_to_set (dedupe_key <$> xs) ∪ seen) ys.
Proof.
  revert seen. induction xs as [|x xs IH]; intros seen; cbn [app fmap list_fmap dedupe_from].
  - rewrite list_to_set_nil. by rewrite (left_id_L ∅ (∪)).
  - rewrite list_to_set_cons. case_decide as Hx.
    + rewrite IH. do 2 f_equal.
      rewrite <- (assoc_L (∪)). symmetry. apply subseteq_union_1_L.
      by apply singleton_subseteq_l, elem_of_union_r.
    + cbn [app]. rewrite IH. do 3 f_equal.
      by rewrite (assoc_L (∪)), (comm_L (∪) _ {[dedupe_key x]}).
Qed.

Lemma dedupe_from_id (records : list RawRecord) (seen : gset string) :
  dedupe_from seen records = records ↔
  NoDup (dedupe_key <$> records) ∧ Forall (λ r, dedupe_key r ∉ seen) records.
Proof.
  split.
  - intros Heq. split; [rewrite <- Heq; apply dedupe_from_NoDup|].
    apply Forall_forall. intros r Hr. rewrite <- Heq in Hr. by eapply dedupe_from_fresh.
  - revert seen. induction records as [|x rest IH]; intros seen; cbn; [done|].
    rewrite NoDup_cons, Forall_cons. intros [[Hx Hnd] [Hseen Hall]].
    rewrite decide_False by done. f_equal. apply IH. split; [done|].
    apply Forall_forall. intros r Hr. rewrite Forall_forall in Hall.
    rewrite not_elem_of_union, not_elem_of_singleton. split; [|by apply Hall].
    intros Heq. apply Hx. rewrite <- Heq. by apply list_elem_of_fmap_2.
Qed.

(** X1.  The records the loop returns carry pairwise distinct joined keys,
    and they are a subsequence of the input: nothing is reordered, altered
    or invented. *)
Theorem dedupe_keys_distinct (xs : list RawRecord) :
  NoDup (dedupe_key <$> dedupe xs) ∧ dedupe xs `sublist_of` xs.
Proof.
  rewrite dedupe_unfold. split; [apply dedupe_from_NoDup | apply dedupe_from_sublist].
Qed.

(** X2.  Every key of the input survives, through the first record that
    carries it: each input record has a kept record with its key, and a kept
    record is preceded in the input by no record with the same key. *)
Theorem dedupe_keeps_first_of_each_key (xs : list RawRecord) :
  (∀ r, r ∈ xs → ∃ r', r' ∈ dedupe xs ∧ dedupe_key r' = dedupe_key r) ∧
  (∀ r, r ∈ dedupe xs →
        ∃ pre post, xs = pre ++ r :: post ∧
                    Forall (λ r', dedupe_key r' ≠ dedupe_key r) pre).
Proof.
  rewrite dedupe_unfold. split.
  - intros r Hr. apply dedupe_from_cover; [done | apply not_elem_of_empty].
  - intros r Hr. by eapply dedupe_from_first.
Qed.

(** X3.  The loop returns its input unchanged exactly when the joined keys
    of the input are pairwise distinct. *)
Theorem dedupe_fixed_point (xs : list RawRecord) :
  dedupe xs = xs ↔ NoDup (dedupe_key <$> xs).
Proof.
  rewrite dedupe_unfold, dedupe_from_id. split; [by intros [? _]|].
  intros Hnd. split; [done|]. apply Forall_forall. intros r _. apply not_elem_of_empty.
Qed.

(** X4.  The records of an earlier source take precedence: the result of
    [get_asx_announcements] starts with the deduplicated Market Index
    records, followed by records of the two other sources, in order, none
    of which has the key of a Market Index record. *)
Theorem earlier_source_takes_precedence (market_index simply_wall_st commsec_style
    : list RawRecord) :
  ∃ rest,
    get_asx_announcements market_index simply_wall_st commsec_style
      = dedupe market_index ++ rest ∧
    rest `sublist_of` simply_wall_st ++ commsec_style ∧
    Forall (λ r, dedupe_key r ∉ dedupe_key <$> market_index) rest.
Proof.
  unfold get_asx_announcements. cbv zeta. rewrite app_nil_l, <- app_assoc.
  rewrite !dedupe_unfold, dedupe_from_app.
  eexists. split; [reflexivity|]. split; [apply dedupe_from_sublist|].
  apply Forall_forall. intros r Hr%dedupe_from_fresh.
  apply not_elem_of_union in Hr as [Hr _]. by rewrite elem_of_list_to_set in Hr.
Qed.

(** X5.  Of the records that share a (company code, title) pair at most one
    is kept: two kept records never have the same pair, whether the fields
    are present, empty or missing. *)
Theorem dedupe_one_per_identity (xs : list RawRecord) (p : string * string) :
  length (filter (λ r, identity r = p) (dedupe xs)) ≤ 1.
Proof.
  rewrite dedupe_unfold. pose proof (dedupe_from_NoDup xs ∅) as Hnd. revert Hnd.
  generalize (dedupe_from ∅ xs) as l. intros l. induction l as [|x l IH]; [cbn; lia|].
  rewrite fmap_cons, NoDup_cons, filter_cons. intros [Hx Hnd].
  case_decide as Hp; [|by apply IH]. cbn.
  destruct (filter (λ r, identity r = p) l) as [|y l'] eqn:Hf; [cbn; lia|].
  exfalso.
  assert (y ∈ filter (λ r, identity r = p) l) as [Hy Hin]%list_elem_of_filter
    by (rewrite Hf; left).
  apply Hx, list_elem_of_fmap. exists y. split; [|done].
  unfold identity in Hp, Hy. unfold dedupe_key. subst p. by injection Hy as -> ->.
Qed.

(** ** Company registry: the two lookups agree *)

(** X6.  [is_mining_company] and [get_company_info] agree: a code is
    reported as tracked exactly when the lookup returns an entry, and the
    entry returned is an entry of the company list that carries the code. *)
Theorem is_mining_company_iff_lookup (companies : list Company) (k : string) :
  is_mining_company companies k = true ↔
  ∃ c, get_company_info companies k = Some c ∧ c ∈ companies ∧ code c = k.
Proof.
  split.
  - intros Htracked. destruct (get_company_info companies k) as [c|] eqn:Hc.
    + exists c. split; [done|]. by apply get_company_info_Some.
    + apply get_company_info_None in Hc. congruence.
  - intros (c & Hc & _). destruct (is_mining_company companies k) eqn:Ht; [done|].
    apply get_company_info_None in Ht. congruence.
Qed.

(** ** Classification: further lemmas *)

Lemma lower_app (a b : string) : lower (a +:+ b) = lower a +:+ lower b.
Proof. induction a as [|c a IH]; [done|]. rewrite append_cons. cbn. by rewrite IH. Qed.

Lemma Substring_extend (w t pre post : string) :
  Substring w t → Substring w (pre +:+ t +:+ post).
Proof.
  intros (a & b & ->). exists (pre +:+ a), (b +:+ post). by rewrite !append_assoc.
Qed.

Lemma contains_empty (w : string) : contains w "" = true ↔ w = "".
Proof.
  rewrite contains_spec. split.
  - intros ([|? ?] & post & H); [|discriminate]. by destruct w.
  - intros ->. by exists "", "".
Qed.

Lemma lower_empty (s : string) : lower s = "" ↔ s = "".
Proof. by destruct s. Qed.

Lemma score_cons (k : string) (kws : list string) (text : string) :
  score (k :: kws) text = (if contains k text then 1 else 0) + score kws text.
Proof. unfold score at 1. cbn. rewrite score_acc. by destruct (contains k text). Qed.

Lemma extract_key_points_cons (k : string) (kws : list string) (t : string) :
  extract_key_points (k :: kws) t =
  (if contains (lower k) t then ["Related to " +:+ k] else []) ++ extract_key_points kws t.
Proof.
  unfold extract_key_points at 1. cbn. rewrite extract_key_points_acc.
  by destruct (contains (lower k) t).
Qed.

Lemma score_mono (kws : list string) (t t' : string) :
  (∀ w, Substring w t → Substring w t') → score kws t ≤ score kws t'.
Proof.
  intros Hsub. induction kws as [|k kws IH]; [done|]. rewrite !score_cons.
  destruct (contains k t) eqn:Hk; [|lia].
  apply contains_spec, Hsub, contains_spec in Hk. rewrite Hk. lia.
Qed.

Lemma extract_key_points_mono (kws : list string) (t t' : string) :
  (∀ w, Substring w t → Substring w t') →
  extract_key_points kws t `sublist_of` extract_key_points kws t'.
Proof.
  intros Hsub. induction kws as [|k kws IH]; [done|]. rewrite !extract_key_points_cons.
  destruct (contains (lower k) t) eqn:Hk.
  - apply contains_spec, Hsub, contains_spec in Hk. rewrite Hk. by apply sublist_skip.
  - destruct (contains (lower k) t'); [by apply sublist_cons | done].
Qed.

Lemma sentiment_label (config : Config) (r : RawRecord) :
  sentiment (analyze_announcement config r) = "positive" ∨
  sentiment (analyze_announcement config r) = "neutral" ∨
  sentiment (analyze_announcement config r) = "negative".
Proof.
  cbn [sentiment analyze_announcement]. repeat case_match; auto.
Qed.

Lemma analyze_all_elem (config : Config) (raws : list RawRecord) (a : Announcement) :
  a ∈ analyze_all config raws ↔
  ∃ r, r ∈ raws ∧ a = analyze_announcement config r ∧
       min_announcement_length config ≤ String.length (title a).
Proof.
  unfold analyze_all. rewrite scan_acc, app_nil_l, list_elem_of_filter, list_elem_of_fmap.
  split.
  - intros [Hlen (r & -> & Hr)]. exists r. split; [done|]. split; [done | lia].
  - intros (r & Hr & -> & Hlen). split; [lia | by exists r].
Qed.

Lemma lower_char_idem (c : ascii) : lower_char (lower_char c) = lower_char c.
Proof. by destruct c as [[] [] [] [] [] [] [] []]. Qed.

Lemma lower_idem (s : string) : lower (lower s) = lower s.
Proof. induction s as [|c s IH]; [done|]. cbn [lower]. by rewrite lower_char_idem, IH. Qed.

(** X7.  Classification is blind to the case of the title: two records whose
    titles are equal up to the case of their ASCII letters get the same
    sentiment and the same key points; in particular a record whose title
    has been lower-cased beforehand is classified as the original is. *)
Theorem classification_ignores_title_case (config : Config) :
  (∀ r1 r2 : RawRecord,
     lower (get r1 "title" "") = lower (get r2 "title" "") →
     sentiment (analyze_announcement config r1)
       = sentiment (analyze_announcement config r2) ∧
     key_points (analyze_announcement config r1)
       = key_points (analyze_announcement config r2)) ∧
  (∀ r : RawRecord,
     let r' := <[ "title" := lower (get r "title" "") ]> r in
     sentiment (analyze_announcement config r') = sentiment (analyze_announcement config r) ∧
     key_points (analyze_announcement config r')
       = key_points (analyze_announcement config r)).
Proof.
  assert (∀ r1 r2 : RawRecord,
     lower (get r1 "title" "") = lower (get r2 "title" "") →
     sentiment (analyze_announcement config r1)
       = sentiment (analyze_announcement config r2) ∧
     key_points (analyze_announcement config r1)
       = key_points (analyze_announcement config r2)) as Hcase.
  { intros r1 r2 Hlower. cbn [sentiment key_points analyze_announcement].
    by rewrite Hlower. }
  split; [exact Hcase|]. intros r r'. apply Hcase.
  unfold r', get at 1. rewrite lookup_insert_eq. apply lower_idem.
Qed.

(** X8.  Matching is by substring, so text added around a title never
    removes a match: the two scores do not decrease, and the key points of
    the shorter title are a subsequence of those of the longer one. *)
Theorem extending_title_keeps_matches (config : Config) (r : RawRecord) (pre post : string) :
  let r' := <[ "title" := pre +:+ get r "title" "" +:+ post ]> r in
  score positive_keywords (lower (get r "title" ""))
    ≤ score positive_keywords (lower (get r' "title" "")) ∧
  score negative_keywords (lower (get r "title" ""))
    ≤ score negative_keywords (lower (get r' "title" "")) ∧
  key_points (analyze_announcement config r)
    `sublist_of` key_points (analyze_announcement config r').
Proof.
  intros r'.
  assert (get r' "title" "" = pre +:+ get r "title" "" +:+ post) as Htitle.
  { unfold r', get. by rewrite lookup_insert_eq. }
  assert (∀ w, Substring w (lower (get r "title" "")) →
               Substring w (lower (get r' "title" ""))) as Hsub.
  { intros w Hw. rewrite Htitle, !lower_app. by apply Substring_extend. }
  split; [by apply score_mono|]. split; [by apply score_mono|].
  cbn [key_points analyze_announcement]. by apply extract_key_points_mono.
Qed.

(** X9.  A record whose title is missing or empty is classified as neutral;
    its key points come from empty configured keywords only, and the gate
    drops it unless the configured minimum is 0. *)
Theorem empty_title_is_neutral (config : Config) (r : RawRecord) :
  get r "title" "" = "" →
  sentiment (analyze_announcement config r) = "neutral" ∧
  key_points (analyze_announcement config r)
    = (λ k, "Related to " +:+ k) <$> filter (λ k, k = "") (keywords config) ∧
  analyze_all config [r]
    = (if min_announcement_length config =? 0 then [analyze_announcement config r] else []).
Proof.
  intros Htitle. split; [|split].
  - cbn [sentiment analyze_announcement]. rewrite Htitle. reflexivity.
  - cbn [key_points analyze_announcement]. rewrite Htitle. cbn [lower].
    induction (keywords config) as [|k kws IH]; [done|].
    rewrite extract_key_points_cons, IH, filter_cons.
    destruct (contains (lower k) "") eqn:Hk.
    + apply (proj1 (contains_empty _)), (proj1 (lower_empty _)) in Hk.
      by rewrite decide_True.
    + rewrite decide_False; [done|]. intros ->. vm_compute in Hk. discriminate.
  - unfold analyze_all. cbn [foldl]. unfold scan_step.
    cbn [title analyze_announcement]. rewrite Htitle. cbn [String.length].
    by destruct (min_announcement_length config).
Qed.

(** X10.  Classification leaves the company code and the title as they are,
    so the announcements that reach the report builder still carry pairwise
    distinct joined keys. *)
Theorem analyzed_keys_distinct (config : Config)
    (market_index simply_wall_st commsec_style : list RawRecord) :
  NoDup ((λ a, company_code a +:+ "-" +:+ title a)
           <$> analyze_all config
                 (get_asx_announcements market_index simply_wall_st commsec_style)).
Proof.
  unfold get_asx_announcements, analyze_all. cbv zeta.
  rewrite scan_acc, app_nil_l. eapply sublist_NoDup; [|apply fmap_sublist, sublist_filter].
  rewrite <- list_fmap_compose, dedupe_unfold.
  apply (dedupe_from_NoDup _ ∅).
Qed.

(** X11.  The announcements that pass the scan carry one of the three
    sentiment labels, so the three sentiment groups of the report leave
    none of them out. *)
Theorem analyzed_sentiments_partition (config : Config) (raws : list RawRecord) :
  let announcements := analyze_all config raws in
  Forall (λ a, sentiment a ∈ ["positive"; "neutral"; "negative"]) announcements ∧
  length (filter (λ a, sentiment a = "positive") announcements)
  + length (filter (λ a, sentiment a = "neutral") announcements)
  + length (filter (λ a, sentiment a = "negative") announcements)
  = length announcements.
Proof.
  intros announcements.
  assert (Forall (λ a, sentiment a = "positive" ∨ sentiment a = "neutral"
                       ∨ sentiment a = "negative") announcements) as Hall.
  { apply Forall_forall. intros a (r & _ & -> & _)%analyze_all_elem. apply sentiment_label. }
  split.
  - eapply Forall_impl; [exact Hall|]. intros a. rewrite !elem_of_cons. tauto.
  - clearbody announcements.
    induction Hall as [|a l Ha Hl IH]; [done|]. rewrite !filter_cons.
    destruct Ha as [Ha | [Ha | Ha]]; rewrite Ha;
      repeat case_decide; try done; cbn [length]; lia.
Qed.

(** X12.  When every scraped title is shorter than the configured minimum,
    the run builds the report of the empty sequence, whatever was scraped. *)
Theorem short_titles_give_empty_report (config : Config) (companies : list Company)
    (now_date now_stamp : string) (project_match location_match : string → option string)
    (numbers : string → list string)
    (market_index simply_wall_st commsec_style : list RawRecord) :
  Forall (λ r, String.length (get r "title" "") < min_announcement_length config)
         (market_index ++ simply_wall_st ++ commsec_style) →
  run_daily_scan config companies now_date now_stamp project_match location_match numbers
    market_index simply_wall_st commsec_style
  = Some (empty_report companies now_date now_stamp).
Proof.
  intros Hshort. unfold run_daily_scan. cbv zeta.
  assert (analyze_all config
            (get_asx_announcements market_index simply_wall_st commsec_style) = []) as ->;
    [|done].
  destruct (analyze_all _ _) as [|a l] eqn:Hl; [done|]. exfalso.
  assert (a ∈ analyze_all config
                (get_asx_announcements market_index simply_wall_st commsec_style))
    as (r & Hr & -> & Hlen)%analyze_all_elem by (rewrite Hl; left).
  unfold get_asx_announcements in Hr. cbv zeta in Hr.
  rewrite app_nil_l, <- app_assoc, dedupe_unfold in Hr.
  eapply elem_of_sublist in Hr; [|apply dedupe_from_sublist].
  rewrite Forall_forall in Hshort. apply Hshort in Hr.
  cbn [title analyze_announcement] in Hlen. lia.
Qed.

(** ** String order: lemmas *)

Lemma leb_total_false (s1 s2 : string) : String.leb s1 s2 = false → String.leb s2 s1 = true.
Proof. destruct (String.leb_total s1 s2) as [H | H]; [by rewrite H | done]. Qed.

Lemma leb_trans (s1 s2 s3 : string) :
  String.leb s1 s2 = true → String.leb s2 s3 = true → String.leb s1 s3 = true.
Proof.
  intros H12%Is_true_true H23%Is_true_true. apply Is_true_true.
  by apply (transitivity (R:=String.le) H12).
Qed.

Lemma leb_ne_ltb (s1 s2 : string) :
  String.leb s1 s2 = true → s1 ≠ s2 → String.ltb s1 s2 = true.
Proof.
  unfold String.leb, String.ltb. destruct (String.compare s1 s2) eqn:Hc; try done.
  by apply String.compare_eq_iff in Hc.
Qed.

(** ** Counting by key: lemmas *)

Lemma sum_list_with_add {A : Type} (f g : A → nat) (l : list A) :
  sum_list_with (λ x, f x + g x) l = sum_list_with f l + sum_list_with g l.
Proof. induction l as [|x l IH]; cbn; [done|]. rewrite IH. lia. Qed.

Lemma sum_indicator (ks : list string) (k : string) :
  NoDup ks → k ∈ ks → sum_list_with (λ k', if decide (k = k') then 1 else 0) ks = 1.
Proof.
  induction 1 as [|x ks Hx Hnd IH]; [by intros ?%elem_of_nil|].
  rewrite elem_of_cons. cbn. intros [-> | Hk].
  - rewrite decide_True by done.
    assert (sum_list_with (λ k', if decide (x = k') then 1 else 0) ks = 0) as ->; [|done].
    clear IH Hnd. induction ks as [|y ks IH]; [done|]. cbn.
    apply not_elem_of_cons in Hx as [? ?]. rewrite decide_False by done. by apply IH.
  - rewrite decide_False by (intros ->; done). by rewrite IH.
Qed.

Lemma sum_counts_by_key {A : Type} (key : A → string) (l : list A) (ks : list string) :
  NoDup ks → (∀ a, a ∈ l → key a ∈ ks) →
  sum_list_with (λ k, length (filter (λ a, key a = k) l)) ks = length l.
Proof.
  intros Hnd. induction l as [|a l IH]; intros Hcover.
  - clear Hnd Hcover. induction ks as [|k ks IH]; [done|].
    cbn [sum_list_with]. by rewrite IH.
  - cbn [length]. rewrite <- IH by (intros; apply Hcover; by right).
    rewrite <- Nat.add_1_l, <- (sum_indicator ks (key a) Hnd) by (apply Hcover; left).
    rewrite <- sum_list_with_add. clear.
    induction ks as [|k ks IH]; [done|]. cbn [sum_list_with]. rewrite IH. f_equal.
    rewrite filter_cons. by case_decide.
Qed.

Section report_further.
Variable mining_companies : list Company.
Variables now_date now_stamp : string.
Variables project_match location_match : string → option string.
Variable numbers : string → list string.

Lemma add_section_text (header : string) (group : list Announcement) (report : string) :
  add_section project_match location_match numbers header group report
  = report +:+ section_text
                 (format_announcement_summary project_match location_match numbers)
                 header group.
Proof.
  destruct group as [|a group]; [by rewrite append_nil_r|].
  unfold add_section, section_text. cbv zeta.
  rewrite (foldl_append (λ a, format_announcement_summary project_match location_match
                                numbers a +:+ nl)).
  by rewrite !append_assoc.
Qed.

Lemma company_items_keys (announcements : list Announcement) :
  (company_items announcements).*1 ≡ₚ first_occurrences [] (company_code <$> announcements).
Proof.
  unfold company_items. rewrite sorted_perm, groups_unfold, <- list_fmap_compose.
  by rewrite list_fmap_id.
Qed.

(** X13.  In the company breakdown the index [company_announcements[0]] is
    always in range: every group holds at least one announcement, and its
    first element is the first announcement of the group's code in input
    order. *)
Theorem company_groups_nonempty (announcements : list Announcement)
    (item : string * list Announcement) :
  item ∈ company_items announcements →
  ∃ first rest pre post,
    item.2 = first :: rest ∧
    company_code first = item.1 ∧
    announcements = pre ++ first :: post ∧
    Forall (λ a, company_code a ≠ item.1) pre.
Proof.
  intros (a & Ha & ->)%company_items_elem. cbn [fst snd].
  assert (∃ y, y ∈ filter (λ x, company_code x = company_code a) announcements) as Hex
    by (exists a; by apply list_elem_of_filter).
  revert Hex. generalize (company_code a) as k. clear a Ha. intros k.
  induction announcements as [|x l IH]; [by intros [? ?%elem_of_nil]|].
  rewrite filter_cons. case_decide as Hx.
  - intros _. by exists x, (filter (λ y, company_code y = k) l), [], l.
  - intros (first & rest & pre & post & Hg & Hk & -> & Hpre)%IH.
    exists first, rest, (x :: pre), post. split; [done|]. split; [done|].
    split; [done|]. by constructor.
Qed.

(** X14.  The company breakdown has one item per distinct company code, in
    strictly ascending order of the codes; the group of a code holds the
    announcements of that code in input order, and the sizes of the groups
    add up to the number of announcements. *)
Theorem company_breakdown_groups (announcements : list Announcement) :
  StronglySorted (λ x y, String.ltb x.1 y.1 = true) (company_items announcements) ∧
  (∀ k g, (k, g) ∈ company_items announcements ↔
          (∃ a, a ∈ announcements ∧ company_code a = k) ∧
          g = filter (λ a, company_code a = k) announcements) ∧
  sum_list_with (λ item, length item.2) (company_items announcements)
  = length announcements.
Proof.
  split; [|split].
  - assert (NoDup (company_items announcements).*1) as Hnd.
    { rewrite company_items_keys. apply first_occurrences_NoDup. }
    assert (StronglySorted (λ x y, item_le x y = true) (company_items announcements))
      as Hsorted.
    { apply sorted_ordered; unfold item_le.
      - intros x y. apply leb_total_false.
      - intros x y z. apply leb_trans. }
    revert Hnd. induction Hsorted as [|x l Hl IH Hx]; [constructor|].
    rewrite fmap_cons, NoDup_cons. intros [Hfresh Hnd]. constructor; [by apply IH|].
    apply Forall_forall. intros y Hy. rewrite Forall_forall in Hx.
    apply leb_ne_ltb; [by apply Hx|]. intros Heq. apply Hfresh. rewrite Heq.
    by apply (list_elem_of_fmap_2 fst).
  - intros k g. rewrite company_items_elem. split.
    + intros (a & Ha & [= -> ->]). split; [by exists a | done].
    + intros [(a & Ha & <-) ->]. by exists a.
  - unfold company_items.
    rewrite (sum_list_with_Permutation_proper _ _ _ (sorted_perm item_le _)).
    rewrite groups_unfold.
    rewrite <- (sum_counts_by_key company_code announcements
                  (first_occurrences [] (company_code <$> announcements))).
    + generalize (first_occurrences [] (company_code <$> announcements)) as ks.
      intros ks. induction ks as [|k ks IH]; [done|]. cbn. by rewrite IH.
    + apply first_occurrences_NoDup.
    + intros a Ha. apply first_occurrences_complete; [by apply list_elem_of_fmap_2|].
      by intros ?%elem_of_nil.
Qed.

(** X15.  For an announcement of a tracked company the two parts of the
    report agree: the breakdown line shows the name and the sector of the
    company entry, not the name embedded in the announcement, and the
    sector summary counts the announcement under that same sector. *)
Theorem tracked_company_labels (announcements : list Announcement) (a : Announcement)
    (c : Company) :
  a ∈ announcements →
  get_company_info mining_companies (company_code a) = Some c →
  ∃ lines n,
    mapM (breakdown_line mining_companies) (company_items announcements) = Some lines ∧
    ("**" +:+ name c +:+ " (" +:+ company_code a +:+ ")** - " +:+ sector c +:+ ": "
     +:+ str (length (filter (λ x, company_code x = company_code a) announcements))
     +:+ " announcement(s)" +:+ nl) ∈ lines ∧
    summary_sector mining_companies a = sector c ∧
    (sector c, n) ∈ sector_items mining_companies announcements ∧
    n = length (filter (λ x, summary_sector mining_companies x = sector c) announcements) ∧
    1 ≤ n.
Proof.
  intros Ha Hinfo.
  destruct (breakdown_lines_total mining_companies announcements) as [lines Hlines].
  assert (summary_sector mining_companies a = sector c) as Hsector
    by (unfold summary_sector; by rewrite Hinfo).
  set (same := filter (λ x, summary_sector mining_companies x = sector c) announcements).
  assert (a ∈ same) as Hsame by (by apply list_elem_of_filter).
  exists lines, (length same). split; [done|]. split; [|split; [done|split; [|split]]].
  - assert ((company_code a, filter (λ x, company_code x = company_code a) announcements)
              ∈ company_items announcements) as Hitem
      by (apply company_items_elem; by exists a).
    apply list_elem_of_lookup in Hitem as [i Hi].
    pose proof Hlines as Hall. apply mapM_Some in Hall.
    destruct (Forall2_lookup_l _ _ _ _ _ Hall Hi) as (line & Hline & Hrender).
    apply list_elem_of_lookup. exists i. rewrite Hline. f_equal.
    unfold breakdown_line in Hrender. cbn [fst snd] in Hrender.
    rewrite Hinfo in Hrender. cbn in Hrender. by injection Hrender as <-.
  - unfold sector_items. rewrite sorted_perm, tally_unfold. unfold discovered_sectors.
    apply list_elem_of_fmap. exists (sector c). split; [done|].
    apply first_occurrences_complete; [|by intros ?%elem_of_nil].
    rewrite <- Hsector. by apply list_elem_of_fmap_2.
  - done.
  - destruct same; [by apply elem_of_nil in Hsame | cbn; lia].
Qed.

(** X16.  In the sector summary every sector appears once, with a count of
    at least 1, and the counts add up to the number of announcements. *)
Theorem sector_counts_total (announcements : list Announcement) :
  NoDup (sector_items mining_companies announcements).*1 ∧
  Forall (λ item, 1 ≤ item.2) (sector_items mining_companies announcements) ∧
  sum_list_with snd (sector_items mining_companies announcements) = length announcements.
Proof.
  unfold sector_items. rewrite tally_unfold.
  set (ks := first_occurrences [] (summary_sector mining_companies <$> announcements)).
  assert (NoDup ks) as Hnd by apply first_occurrences_NoDup.
  split; [|split].
  - rewrite sorted_perm. unfold discovered_sectors. fold ks.
    by rewrite <- list_fmap_compose, list_fmap_id.
  - rewrite sorted_perm. unfold discovered_sectors. fold ks.
    apply Forall_forall.
    intros item (s & -> & [_ Hs]%first_occurrences_fresh)%list_elem_of_fmap.
    apply list_elem_of_fmap in Hs as (a & -> & Ha). cbn [snd].
    assert (a ∈ filter (λ x, summary_sector mining_companies x
                             = summary_sector mining_companies a) announcements) as Hin
      by (by apply list_elem_of_filter).
    destruct (filter _ announcements); [by apply elem_of_nil in Hin | cbn; lia].
  - rewrite (sum_list_with_Permutation_proper _ _ _ (sorted_perm count_ge _)).
    unfold discovered_sectors. fold ks.
    rewrite <- (sum_counts_by_key (summary_sector mining_companies) announcements ks Hnd).
    + clear Hnd. generalize ks as l. intros l. induction l as [|k l IH]; [done|].
      cbn. by rewrite IH.
    + intros a Ha. apply first_occurrences_complete; [by apply list_elem_of_fmap_2|].
      by intros ?%elem_of_nil.
Qed.

(** X17.  The layout of the report of a non-empty sequence: the heading with
    the number of announcements, then the positive, the neutral and the
    negative group in that order, each present only when it is not empty and
    listing its announcements in input order, then the company breakdown,
    the sector summary and the footer. *)
Theorem report_layout (announcements : list Announcement) :
  announcements ≠ [] →
  ∃ lines,
    mapM (breakdown_line mining_companies) (company_items announcements) = Some lines ∧
    generate_daily_report mining_companies now_date now_stamp
      project_match location_match numbers announcements
    = Some (report_head now_date announcements
            +:+ section_text
                  (format_announcement_summary project_match location_match numbers)
                  positive_header (filter (λ a, sentiment a = "positive") announcements)
            +:+ section_text
                  (format_announcement_summary project_match location_match numbers)
                  neutral_header (filter (λ a, sentiment a = "neutral") announcements)
            +:+ section_text
                  (format_announcement_summary project_match location_match numbers)
                  negative_header (filter (λ a, sentiment a = "negative") announcements)
            +:+ "## Company Breakdown" +:+ nl
            +:+ join lines
            +:+ sector_summary_head
            +:+ join (sector_line <$> sector_items mining_companies announcements)
            +:+ report_foot mining_companies now_stamp).
Proof.
  intros Hne.
  destruct (report_structure mining_companies now_date now_stamp project_match
              location_match numbers announcements Hne) as (lines & Hlines & ->).
  exists lines. split; [done|]. f_equal. unfold key_announcements.
  rewrite !add_section_text. by rewrite !append_assoc.
Qed.
End report_further.

(** ** The Market Index scraper: what it returns *)

Section scraper_properties.
Variable mining_companies : list Company.
Variable company_match : string → option string.
Variable company_name_of : string → string.

Lemma scrape_row_elem (announcements : list RawRecord) (row : list string * string)
    (r : RawRecord) :
  r ∈ scrape_row mining_companies company_match company_name_of announcements row ↔
  r ∈ announcements ∨
  ∃ time_text company_text title_text rest company_code,
    row.1 = time_text :: company_text :: title_text :: rest ∧
    company_match company_text = Some company_code ∧
    is_mining_company mining_companies company_code = true ∧
    r = market_index_record time_text company_code (company_name_of company_text)
          title_text row.2.
Proof.
  unfold scrape_row.
  destruct row.1 as [|time_text [|company_text [|title_text rest]]] eqn:Hcells;
    try (split; [by left | by intros [? | (? & ? & ? & ? & ? & ? & _)]]).
  destruct (company_match company_text) as [company_code|] eqn:Hmatch.
  - destruct (is_mining_company mining_companies company_code) eqn:Htracked.
    + cbv zeta. rewrite elem_of_app, list_elem_of_singleton. split.
      * intros [? | ->]; [by left | right]. by exists time_text, company_text, title_text, rest, company_code.
      * intros [? | (? & ? & ? & ? & ? & [= <- <- <- <-] & Hm & _ & ->)]; [by left | right].
        rewrite Hmatch in Hm. by injection Hm as <-.
    + split; [by left|].
      intros [? | (? & ? & ? & ? & ? & [= <- <- <- <-] & Hm & Ht & _)]; [done|].
      rewrite Hmatch in Hm. injection Hm as <-. congruence.
  - split; [by left|].
    intros [? | (? & ? & ? & ? & ? & [= <- <- <- <-] & Hm & _)]; [done|]. congruence.
Qed.

Lemma scrape_rows_elem (rows : list (list string * string)) (announcements : list RawRecord)
    (r : RawRecord) :
  r ∈ foldl (scrape_row mining_companies company_match company_name_of) announcements rows ↔
  r ∈ announcements ∨
  ∃ row, row ∈ rows ∧
         r ∈ scrape_row mining_companies company_match company_name_of [] row.
Proof.
  revert announcements. induction rows as [|row rows IH]; intros announcements; cbn [foldl].
  - split; [by left | intros [? | (? & ?%elem_of_nil & _)]; done].
  - rewrite IH, scrape_row_elem. split.
    + intros [[? | Hrow] | (row' & Hin & Hr)]; [by left | right | right].
      * exists row. split; [left|]. apply scrape_row_elem. by right.
      * exists row'. split; [by right | done].
    + intros [? | (row' & [-> | Hin]%elem_of_cons & Hr)]; [by left; left | |].
      * apply scrape_row_elem in Hr as [?%elem_of_nil | Hr]; [done|]. by left; right.
      * right. by exists row'.
Qed.

Lemma scrape_tables_elem (tables : list (list (list string * string)))
    (announcements : list RawRecord) (r : RawRecord) :
  r ∈ foldl (scrape_table mining_companies company_match company_name_of)
        announcements tables ↔
  r ∈ announcements ∨
  ∃ rows row, rows ∈ tables ∧ row ∈ tail rows ∧
              r ∈ scrape_row mining_companies company_match company_name_of [] row.
Proof.
  revert announcements. induction tables as [|rows tables IH]; intros announcements;
    cbn [foldl].
  - split; [by left | intros [? | (? & ? & ?%elem_of_nil & _)]; done].
  - rewrite IH. unfold scrape_table. rewrite scrape_rows_elem. split.
    + intros [[? | (row & Hrow & Hr)] | (rows' & row & Hin & Hrow & Hr)];
        [by left | right | right].
      * exists rows, row. split; [left | done].
      * exists rows', row. split; [by right | done].
    + intros [? | (rows' & row & [-> | Hin]%elem_of_cons & Hrow & Hr)];
        [by left; left | |].
      * left. right. by exists row.
      * right. by exists rows', row.
Qed.

(** X18.  The scraper returns a record exactly for the rows after the first
    row of a table that have at least three cells, whose company cell yields
    a code, and whose code is a tracked one; the record holds the three cell
    texts, the code, and the title again as content.  A failed request
    yields no record. *)
Theorem scraped_records (response : option (list (list (list string * string))))
    (r : RawRecord) :
  r ∈ scrape_market_index mining_companies company_match company_name_of response ↔
  ∃ tables rows row time_text company_text title_text rest company_code,
    response = Some tables ∧ rows ∈ tables ∧ row ∈ tail rows ∧
    row.1 = time_text :: company_text :: title_text :: rest ∧
    company_match company_text = Some company_code ∧
    is_mining_company mining_companies company_code = true ∧
    r = market_index_record time_text company_code (company_name_of company_text)
          title_text row.2.
Proof.
  destruct response as [tables|]; cbn [scrape_market_index].
  - rewrite scrape_tables_elem. split.
    + intros [?%elem_of_nil | (rows & row & Hrows & Hrow & Hr)]; [done|].
      apply scrape_row_elem in Hr as [?%elem_of_nil | Hr]; [done|].
      destruct Hr as (t & c & ti & rest & code & Hr). by exists tables, rows, row, t, c, ti, rest, code.
    + intros (? & rows & row & t & c & ti & rest & code & [= <-] & Hrows & Hrow & Hr).
      right. exists rows, row. split; [done|]. split; [done|].
      apply scrape_row_elem. right. by exists t, c, ti, rest, code.
  - split; [by intros ?%elem_of_nil|]. by intros (? & ? & ? & ? & ? & ? & ? & ? & [=] & _).
Qed.

Lemma scraped_record_fields (response : option (list (list (list string * string))))
    (r : RawRecord) :
  r ∈ scrape_market_index mining_companies company_match company_name_of response →
  is_mining_company mining_companies (get r "company_code" "") = true ∧
  r !! "content" = r !! "title" ∧
  is_Some (r !! "title") ∧
  get r "url" "" = market_index_url.
Proof.
  destruct response as [tables|]; cbn [scrape_market_index]; [|by intros ?%elem_of_nil].
  intros [?%elem_of_nil | (rows & row & _ & _ & Hr)]%scrape_tables_elem; [done|].
  apply scrape_row_elem in Hr as [?%elem_of_nil | Hr]; [done|].
  destruct Hr as (t & c & ti & rest & code & _ & _ & Htracked & ->).
  unfold market_index_record, get. by simplify_map_eq.
Qed.

(** X19.  Every scraped record has exactly the seven keys of the loop body,
    a tracked company code, a content equal to its title, and the page
    address as its url. *)
Theorem scraped_record_shape (response : option (list (list (list string * string))))
    (r : RawRecord) :
  r ∈ scrape_market_index mining_companies company_match company_name_of response →
  dom r = list_to_set ["time"; "company_code"; "company_name"; "title"; "date"; "url";
                       "content"] ∧
  is_mining_company mining_companies (get r "company_code" "") = true ∧
  r !! "content" = r !! "title" ∧
  get r "url" "" = market_index_url.
Proof.
  intros Hr. destruct (scraped_record_fields response r Hr) as (Ht & Hc & _ & Hu).
  split; [|done].
  destruct response as [tables|]; cbn [scrape_market_index] in Hr;
    [|by apply elem_of_nil in Hr].
  apply scrape_tables_elem in Hr as [?%elem_of_nil | (rows & row & _ & _ & Hr)]; [done|].
  apply scrape_row_elem in Hr as [?%elem_of_nil | Hr]; [done|].
  destruct Hr as (t & c & ti & rest & code & _ & _ & _ & ->).
  unfold market_index_record. rewrite !dom_insert_L, dom_empty_L.
  cbn [list_to_set foldr]. done.
Qed.

(** X20.  In a run fed by the scraper, every announcement that reaches the
    report builder belongs to a company the registry finds, so neither
    fallback label is used for it, and its content is its title. *)
Theorem scraped_announcements_are_tracked (config : Config)
    (response : option (list (list (list string * string)))) (a : Announcement) :
  a ∈ analyze_all config
        (get_asx_announcements
           (scrape_market_index mining_companies company_match company_name_of response)
           scrape_simply_wall_st scrape_commsec_style) →
  (∃ c, get_company_info mining_companies (company_code a) = Some c ∧
        summary_sector mining_companies a = sector c) ∧
  content a = title a ∧
  url a = market_index_url.
Proof.
  intros (r & Hr & -> & _)%analyze_all_elem.
  unfold get_asx_announcements, scrape_simply_wall_st, scrape_commsec_style in Hr.
  cbv zeta in Hr. rewrite app_nil_l, !app_nil_r, dedupe_unfold in Hr.
  eapply elem_of_sublist in Hr; [|apply dedupe_from_sublist].
  apply scraped_record_fields in Hr as (Htracked & Hcontent & [t Htitle] & Hurl).
  split; [|split].
  - cbn [company_code analyze_announcement]. unfold summary_sector.
    cbn [company_code analyze_announcement].
    destruct (get_company_info mining_companies (get r "company_code" "")) as [c|] eqn:Hc.
    + by exists c.
    + apply get_company_info_None in Hc. congruence.
  - cbn [content title analyze_announcement]. unfold get. by rewrite Hcontent, Htitle.
  - done.
Qed.

(** X21.  When no tracked code holds a hyphen, as in the static table, the
    records of a run fed by the scraper are deduplicated exactly by their
    (company code, title) pair. *)
Theorem scraped_records_dedupe_by_pair
    (response : option (list (list (list string * string)))) :
  Forall (λ c, has_char "-" (code c) = false) mining_companies →
  get_asx_announcements
    (scrape_market_index mining_companies company_match company_name_of response)
    scrape_simply_wall_st scrape_commsec_style
  = dedupe_by_identity []
      (scrape_market_index mining_companies company_match company_name_of response).
Proof.
  intros Hplain. unfold get_asx_announcements, scrape_simply_wall_st, scrape_commsec_style.
  cbv zeta. rewrite app_nil_l, !app_nil_r.
  apply dedupe_by_identity_plain_codes, Forall_forall.
  intros r (Htracked & _)%scraped_record_fields.
  destruct (get_company_info mining_companies (get r "company_code" "")) as [c|] eqn:Hc.
  - apply get_company_info_Some in Hc as [Hin <-]. rewrite Forall_forall in Hplain.
    by apply Hplain.
  - apply get_company_info_None in Hc. congruence.
Qed.
End scraper_properties.

(** ** Deduplication by the pair of company code and title *)

Lemma all_capital_plain (s : string) : all_capital s = true → has_char "-" s = false.
Proof.
  induction s as [|c s IH]; cbn [all_capital has_char]; [done|].
  intros [Hc Hs]%andb_true_iff. rewrite decide_False; [by apply IH|].
  intros ->. vm_compute in Hc. discriminate.
Qed.

Lemma is_ticker_plain (s : string) : is_ticker s = true → has_char "-" s = false.
Proof. unfold is_ticker. intros [_ Hs]%andb_true_iff. by apply all_capital_plain. Qed.

Lemma dedupe_by_identity_first (records : list RawRecord) (seen : list (string * string))
    (p : string * string) :
  filter (λ r, identity r = p) (dedupe_by_identity seen records)
  = if decide (p ∈ seen) then [] else take 1 (filter (λ r, identity r = p) records).
Proof.
  revert seen. induction records as [|r rest IH]; intros seen; cbn [dedupe_by_identity].
  - by case_decide.
  - rewrite (filter_cons _ r rest). destruct (decide (identity r ∈ seen)) as [Hr | Hr].
    + rewrite IH. destruct (decide (identity r = p)) as [<- | Hp]; [|done].
      by case_decide.
    + rewrite filter_cons, IH. destruct (decide (identity r = p)) as [<- | Hp].
      * rewrite decide_True by left. by case_decide.
      * destruct (decide (p ∈ seen)) as [Hin | Hin].
        -- rewrite decide_True; [done | by right].
        -- rewrite decide_False; [done|]. rewrite not_elem_of_cons. split; [congruence | done].
Qed.

Section dedupe_in_the_run.
Variable mining_companies : list Company.
Variable company_match : string → option string.
Variable company_name_of : string → string.
Hypothesis company_match_ticker :
  ∀ company_text company_code,
    company_match company_text = Some company_code → is_ticker company_code = true.

Lemma scraped_codes_plain (response : option (list (list (list string * string)))) :
  Forall (λ r, has_char "-" (get r "company_code" "") = false)
         (scrape_market_index mining_companies company_match company_name_of response).
Proof.
  apply Forall_forall. intros r Hr.
  destruct response as [tables|]; cbn [scrape_market_index] in Hr;
    [|by apply elem_of_nil in Hr].
  apply scrape_tables_elem in Hr as [?%elem_of_nil | (rows & row & _ & _ & Hr)]; [done|].
  apply scrape_row_elem in Hr as [?%elem_of_nil | Hr]; [done|].
  destruct Hr as (t & c & ti & rest & company_code & _ & Hmatch & _ & ->).
  unfold market_index_record, get. simplify_map_eq.
  by apply is_ticker_plain, (company_match_ticker c).
Qed.
End dedupe_in_the_run.

(** C1.  The deduplication step treats two records as duplicates exactly
    when their (company code, title) pairs are equal as strings, a missing
    field read as the empty string.  For every sequence of records whose
    company codes hold no hyphen, the loop returns what deduplication by the
    pair returns: of the records that share a pair exactly the first in
    input order is kept, records with different pairs are never merged, and
    the order of the input is kept.  These are the sequences the loop
    receives: a company code is group 1 of the search for two to four
    capital letters, so the records that [get_asx_announcements] gathers
    hold no hyphen in their codes, and its result is their deduplication by
    the pair. *)
Theorem dedupe_by_company_code_and_title :
  (∀ records : list RawRecord,
     Forall (λ r, has_char "-" (get r "company_code" "") = false) records →
     dedupe records = dedupe_by_identity [] records ∧
     (∀ p, filter (λ r, identity r = p) (dedupe records)
           = take 1 (filter (λ r, identity r = p) records)) ∧
     dedupe records `sublist_of` records) ∧
  (∀ (mining_companies : list Company) (company_match : string → option string)
     (company_name_of : string → string)
     (response : option (list (list (list string * string)))),
     (∀ company_text company_code,
        company_match company_text = Some company_code → is_ticker company_code = true) →
     let announcements :=
       scrape_market_index mining_companies company_match company_name_of response
       ++ scrape_simply_wall_st ++ scrape_commsec_style in
     Forall (λ r, has_char "-" (get r "company_code" "") = false) announcements ∧
     get_asx_announcements
       (scrape_market_index mining_companies company_match company_name_of response)
       scrape_simply_wall_st scrape_commsec_style
     = dedupe_by_identity [] announcements).
Proof.
  assert (∀ records : list RawRecord,
     Forall (λ r, has_char "-" (get r "company_code" "") = false) records →
     dedupe records = dedupe_by_identity [] records ∧
     (∀ p, filter (λ r, identity r = p) (dedupe records)
           = take 1 (filter (λ r, identity r = p) records)) ∧
     dedupe records `sublist_of` records) as Hloop.
  { intros records Hplain. split; [by apply dedupe_by_identity_plain_codes|]. split.
    - intros p. rewrite dedupe_by_identity_plain_codes by done.
      rewrite dedupe_by_identity_first. rewrite decide_False; [done|].
      by intros ?%elem_of_nil.
    - rewrite dedupe_unfold. apply dedupe_from_sublist. }
  split; [exact Hloop|].
  intros mining_companies company_match company_name_of response Hmatch announcements.
  assert (Forall (λ r, has_char "-" (get r "company_code" "") = false) announcements)
    as Hplain.
  { unfold announcements, scrape_simply_wall_st, scrape_commsec_style.
    rewrite !app_nil_r. by apply scraped_codes_plain. }
  split; [exact Hplain|].
  unfold get_asx_announcements. cbv zeta. rewrite app_nil_l, <- app_assoc.
  by apply Hloop.
Qed.

(** ** The scraper in the run *)

(** X23.  When the request fails, or when no table of the page has a row
    after its header, the scraper contributes nothing and the run builds the
    report of the empty sequence: a failed fetch reads like a day without
    announcements. *)
Theorem failed_fetch_gives_empty_report (config : Config) (companies : list Company)
    (company_match : string → option string) (company_name_of : string → string)
    (now_date now_stamp : string) (project_match location_match : string → option string)
    (numbers : string → list string)
    (response : option (list (list (list string * string)))) :
  match response with
  | Some tables => Forall (λ rows, length rows ≤ 1) tables
  | None => True
  end →
  scrape_market_index companies company_match company_name_of response = [] ∧
  run_daily_scan config companies now_date now_stamp project_match location_match numbers
    (scrape_market_index companies company_match company_name_of response)
    scrape_simply_wall_st scrape_commsec_style
  = Some (empty_report companies now_date now_stamp).
Proof.
  intros Hpage.
  assert (scrape_market_index companies company_match company_name_of response = [])
    as Hnone.
  { destruct response as [tables|]; [|done]. cbn [scrape_market_index].
    induction Hpage as [|rows tables Hrows _ IH]; [done|]. cbn [foldl].
    destruct rows as [|header [|row rows]]; [exact IH | exact IH | cbn in Hrows; lia]. }
  split; [exact Hnone|]. by rewrite Hnone.
Qed.

(** ** The summary line *)

Section summary_properties.
Variables project_match location_match : string → option string.
Variable numbers : string → list string.

(** X22.  A summary line is the bullet and the company name of the
    announcement in bold, the phrase of the first action word that occurs in
    the lower-cased title (production before drilling, resource, approval
    and acquisition; "announced" when none occurs), the project name when
    the project search succeeds and otherwise the location name when that
    search succeeds, the first number found, and always the title as it is
    and the company code in parentheses. *)
Theorem summary_line_parts (a : Announcement) :
  ∃ action place number,
    format_announcement_summary project_match location_match numbers a
    = "â€¢ **" +:+ company_name a +:+ "** " +:+ action +:+ place +:+ number
      +:+ "- " +:+ title a +:+ " (" +:+ company_code a +:+ ")" ∧
    ActionPhrase (lower (title a)) action_table action ∧
    place = match project_match (title a), location_match (title a) with
            | Some project_name, _ => "at **" +:+ project_name +:+ "** "
            | None, Some location_name => "for **" +:+ location_name +:+ "** "
            | None, None => ""
            end ∧
    number = match numbers (title a) with
             | n :: _ => "with " +:+ n +:+ " "
             | [] => ""
             end.
Proof.
  exists (if contains "production" (lower (title a)) then "reported production "
          else if contains "drilling" (lower (title a)) then "announced drilling "
          else if contains "resource" (lower (title a)) then "updated resource "
          else if contains "approval" (lower (title a)) then "received approval "
          else if contains "acquisition" (lower (title a)) then "announced acquisition "
          else "announced ").
  do 2 eexists. split; [|split; [|split; reflexivity]].
  - unfold format_announcement_summary. cbv zeta.
    destruct (project_match (title a)), (location_match (title a)), (numbers (title a));
      repeat case_match; by rewrite !append_assoc.
  - destruct (contains "production" (lower (title a))) eqn:H1;
      [apply ActionPhrase_hit; by apply contains_spec|].
    apply ActionPhrase_miss; [by apply not_contains_spec|].
    destruct (contains "drilling" (lower (title a))) eqn:H2;
      [apply ActionPhrase_hit; by apply contains_spec|].
    apply ActionPhrase_miss; [by apply not_contains_spec|].
    destruct (contains "resource" (lower (title a))) eqn:H3;
      [apply ActionPhrase_hit; by apply contains_spec|].
    apply ActionPhrase_miss; [by apply not_contains_spec|].
    destruct (contains "approval" (lower (title a))) eqn:H4;
      [apply ActionPhrase_hit; by apply contains_spec|].
    apply ActionPhrase_miss; [by apply not_contains_spec|].
    destruct (contains "acquisition" (lower (title a))) eqn:H5;
      [apply ActionPhrase_hit; by apply contains_spec|].
    apply ActionPhrase_miss; [by apply not_contains_spec|].
    apply ActionPhrase_none.
Qed.
End summary_properties.

(** ** Further statements at concrete inputs *)

(** Two titles that differ in case only. *)
Lemma classification_ignores_title_case_witness :
  sentiment (analyze_announcement load_config_from_env
               {[ "title" := "RECORD Gold Discovery" ]})
  = sentiment (analyze_announcement load_config_from_env
                 {[ "title" := "record gold discovery" ]}).
Proof.
  destruct (classification_ignores_title_case load_config_from_env) as [Hcase _].
  apply Hcase. vm_compute. reflexivity.
Defined.

(** A record that has a company code and no title. *)
Lemma empty_title_is_neutral_witness :
  get untitled_record "title" "" = "" ∧
  sentiment (analyze_announcement load_config_from_env untitled_record) = "neutral" ∧
  key_points (analyze_announcement load_config_from_env untitled_record) = [] ∧
  analyze_all load_config_from_env [untitled_record] = [].
Proof.
  assert (get untitled_record "title" "" = "") as Htitle by (vm_compute; reflexivity).
  destruct (empty_title_is_neutral load_config_from_env untitled_record Htitle)
    as (Hsentiment & Hpoints & Hgate).
  split; [exact Htitle|]. split; [exact Hsentiment|]. split; [exact Hpoints | exact Hgate].
Defined.

(** A run whose only scraped record has a title of 10 characters. *)
Lemma short_titles_give_empty_report_witness :
  run_daily_scan load_config_from_env static_companies "November 04, 2026"
    "2026-11-04 08:00:00" (λ _, None) (λ _, None) (λ _, []) [short_record] [] []
  = Some (empty_report static_companies "November 04, 2026" "2026-11-04 08:00:00").
Proof.
  apply short_titles_give_empty_report.
  constructor; [vm_compute; lia | constructor].
Defined.

(** The labels of the announcement of Newcrest among the three sample
    announcements. *)
Lemma tracked_company_labels_witness :
  ∃ (lines : list string) n,
    mapM (breakdown_line static_companies) (company_items gold_gold_lithium) = Some lines ∧
    ("**Newcrest Mining Limited (NCM)** - Gold: 1 announcement(s)" +:+ nl) ∈ lines ∧
    ("Gold", n) ∈ sector_items static_companies gold_gold_lithium.
Proof.
  destruct (tracked_company_labels static_companies gold_gold_lithium
              (mkAnnouncement "Newcrest Mining Limited" "NCM"
                 "Quarterly production report for Cadia"
                 "Quarterly production report for Cadia"
                 "2026-11-04" "08:15" "https://www.marketindex.com.au/asx/announcements"
                 "neutral" ["Related to production"])
              (mkCompany "NCM" "Newcrest Mining Limited" "Gold"))
    as (lines & n & Hlines & Hline & _ & Hsector & _).
  - apply list_elem_of_here.
  - vm_compute. reflexivity.
  - exists lines, n. split; [exact Hlines|]. split; [exact Hline | exact Hsector].
Defined.

(** The layout of the report of the three sample announcements. *)
Lemma report_layout_witness :
  gold_gold_lithium ≠ [] ∧
  ∃ lines,
    mapM (breakdown_line static_companies) (company_items gold_gold_lithium) = Some lines ∧
    is_Some (generate_daily_report static_companies "November 04, 2026"
               "2026-11-04 08:00:00" (λ _, None) (λ _, None) (λ _, []) gold_gold_lithium).
Proof.
  assert (gold_gold_lithium ≠ []) as Hne by (unfold gold_gold_lithium; discriminate).
  destruct (report_layout static_companies "November 04, 2026" "2026-11-04 08:00:00"
              (λ _, None) (λ _, None) (λ _, []) gold_gold_lithium Hne)
    as (lines & Hlines & Hreport).
  split; [exact Hne|]. exists lines. split; [exact Hlines|]. rewrite Hreport. by eexists.
Defined.

(** The record scraped from the second row of the sample page. *)
Lemma scraped_record_shape_witness :
  sample_scraped_record
    ∈ scrape_market_index static_companies leading_code id (Some sample_page) ∧
  sample_scraped_record !! "content" = sample_scraped_record !! "title" ∧
  is_mining_company static_companies (get sample_scraped_record "company_code" "") = true.
Proof.
  assert (sample_scraped_record
            ∈ scrape_market_index static_companies leading_code id (Some sample_page))
    as Hin by (vm_compute; apply list_elem_of_here).
  destruct (scraped_record_shape static_companies leading_code id (Some sample_page)
              sample_scraped_record Hin) as (_ & Htracked & Hcontent & _).
  split; [exact Hin|]. split; [exact Hcontent | exact Htracked].
Defined.

(** The announcement the run makes of that record. *)
Lemma scraped_announcements_are_tracked_witness :
  ∃ c, get_company_info static_companies "NCM" = Some c ∧
       summary_sector static_companies
         (analyze_announcement load_config_from_env sample_scraped_record) = sector c.
Proof.
  destruct (scraped_announcements_are_tracked static_companies leading_code id
              load_config_from_env (Some sample_page)
              (analyze_announcement load_config_from_env sample_scraped_record))
    as ((c & Hc & Hsector) & _).
  - vm_compute. apply list_elem_of_here.
  - exists c. split; [exact Hc | exact Hsector].
Defined.

(** The static table holds no code with a hyphen. *)
Lemma scraped_records_dedupe_by_pair_witness :
  get_asx_announcements
    (scrape_market_index static_companies leading_code id (Some sample_page))
    scrape_simply_wall_st scrape_commsec_style
  = dedupe_by_identity []
      (scrape_market_index static_companies leading_code id (Some sample_page)).
Proof.
  apply scraped_records_dedupe_by_pair. unfold static_companies.
  repeat (constructor; [reflexivity|]). constructor.
Defined.

(** A request that raised. *)
Lemma failed_fetch_gives_empty_report_witness :
  run_daily_scan load_config_from_env static_companies "November 04, 2026"
    "2026-11-04 08:00:00" (λ _, None) (λ _, None) (λ _, [])
    (scrape_market_index static_companies leading_code id None)
    scrape_simply_wall_st scrape_commsec_style
  = Some (empty_report static_companies "November 04, 2026" "2026-11-04 08:00:00").
Proof.
  exact (proj2 (failed_fetch_gives_empty_report load_config_from_env static_companies
                  leading_code id "November 04, 2026" "2026-11-04 08:00:00"
                  (λ _, None) (λ _, None) (λ _, []) None I)).
Defined.

(** The loop on three records, and the run on a page that repeats a row. *)
Lemma dedupe_by_company_code_and_title_witness :
  Forall (λ r, has_char "-" (get r "company_code" "") = false) repeated_records ∧
  dedupe repeated_records = take 2 repeated_records ∧
  length (get_asx_announcements
            (scrape_market_index static_companies leading_ticker id (Some repeating_page))
            scrape_simply_wall_st scrape_commsec_style) = 2.
Proof.
  destruct dedupe_by_company_code_and_title as [Hloop Hrun].
  assert (Forall (λ r, has_char "-" (get r "company_code" "") = false) repeated_records)
    as Hplain by (unfold repeated_records; repeat (constructor; [reflexivity|]); constructor).
  split; [exact Hplain|]. split.
  - destruct (Hloop repeated_records Hplain) as (-> & _). vm_compute. reflexivity.
  - destruct (Hrun static_companies leading_ticker id (Some repeating_page)) as (_ & ->).
    + intros company_text company_code. unfold leading_ticker.
      destruct (is_ticker (String.substring 0 3 company_text)) eqn:Ht; [|done].
      by intros [= <-].
    + vm_compute. reflexivity.
Defined.

(** The group of Newcrest among the three sample announcements. *)
Lemma company_groups_nonempty_witness :
  ∃ first rest, 
    filter (λ a, company_code a = "NCM") gold_gold_lithium = first :: rest ∧
    company_code first = "NCM".
Proof.
  destruct (company_groups_nonempty gold_gold_lithium
              ("NCM", filter (λ a, company_code a = "NCM") gold_gold_lithium))
    as (first & rest & _ & _ & Hg & Hk & _).
  - vm_compute. apply list_elem_of_further, list_elem_of_here.
  - exists first, rest. split; [exact Hg | exact Hk].
Defined.
